(** * cloud-lock: the command lifecycle of [main.py]

    A shallow embedding of the FastAPI handlers of [main.py]
    ([api_unlock], [api_command], [api_ack], [api_events], [root]) and of
    the module-level state they share ([commands], [events]), followed by
    the properties of the command slot and of the audit log.

    The two sources of non-determinism of the module, [time.time()] and
    [secrets.token_hex], are read from oracles carried by the state: every
    theorem quantifies over them. *)

From Stdlib Require Import ZArith Ascii String List Lia.
From stdpp Require Import gmap strings list fin_maps.

Local Open Scope string_scope.
Local Open Scope list_scope.
Local Open Scope Z_scope.

(** ** Configuration (lines 27-30) *)

Definition ADMIN_API_KEY : string := "CHANGE_ME_ADMIN_KEY_12345".

Definition DEVICE_KEYS : gmap string string :=
  {[ "lock1" := "CHANGE_ME_DEVICE_KEY_LOCK1" ]}.

(** ** Data *)

(** The dictionaries stored in [commands]: always the same four keys. *)
Record Command := mkCommand {
  action : string;
  request_id : string;
  expires_at : Z;
  created_at : Z }.

(** [{"action": "none", "request_id": "", "expires_at": 0, "created_at": 0}] *)
Definition NONE_COMMAND : Command :=
  {| action := "none"; request_id := ""; expires_at := 0; created_at := 0 |}.

(** The dictionaries appended to [events], one constructor per ["type"]. *)
Inductive Event :=
| UnlockIssued (ts : Z) (device_id request_id : string)
| CommandExpired (ts : Z) (device_id : string)
| AckMismatch (ts : Z) (device_id request_id current_request_id status : string)
| Ack (ts : Z) (device_id request_id status : string).

(** The value under the key ["type"]. *)
Definition ev_type (e : Event) : string :=
  match e with
  | UnlockIssued _ _ _ => "unlock_issued"
  | CommandExpired _ _ => "command_expired"
  | AckMismatch _ _ _ _ _ => "ack_mismatch"
  | Ack _ _ _ _ => "ack"
  end.

(** The request bodies (lines 58-66). *)
Module UnlockRequest.

Record t := mk { device_id : string; ttl_seconds : option Z }.

(** [ttl_seconds: Optional[int] = 10]: the value of a body without the field. *)
Definition of_device (d : string) : t :=
  {| device_id := d; ttl_seconds := Some 10 |}.

End UnlockRequest.

Module AckRequest.

Record t := mk { device_id : string; request_id : string; status : string }.

(** [status: str = "done"] *)
Definition of_ids (d r : string) : t :=
  {| device_id := d; request_id := r; status := "done" |}.

End AckRequest.

(** What a handler can raise: [HTTPException(status_code, detail)], or the
    [KeyError] of the subscript [DEVICE_KEYS[...]]. *)
Inductive Exn :=
| HTTPException (status_code : Z) (detail : string)
| KeyError (key : string).

(** The dictionaries the handlers return. *)
Record UnlockResponse := mkUnlockResponse {
  ur_ok : bool;
  ur_device_id : string;
  ur_action : string;
  ur_request_id : string;
  ur_expires_at : Z }.

(** [api_command] returns either the stored dictionary itself or the
    one-key dictionary [{"action": "none"}]. *)
Inductive CommandResponse :=
| StoredCommand (cmd : Command)
| ActionOnly (a : string).

Definition resp_action (r : CommandResponse) : string :=
  match r with
  | StoredCommand cmd => action cmd
  | ActionOnly a => a
  end.

(** [{"ok": True}] or [{"ok": False, "detail": ...}] *)
Record AckResponse := mkAckResponse {
  ok : bool;
  ack_detail : option string }.

Record RootResponse := mkRootResponse {
  root_ok : bool;
  service : string;
  time : Z }.

(** ** The state of the process and its environment *)

Record World := mkWorld {
  commands : gmap string Command;
  events : list Event;
  (** successive results of [int(time.time())] and how many were read *)
  clock : nat -> Z;
  ticks : nat;
  (** the bytes of the system random source and how many were drawn *)
  urandom : nat -> Byte.byte;
  drawn : nat }.

(** ** Handlers as state transformers that may raise *)

Definition M (A : Type) : Type := World -> (Exn + A) * World.

Definition ret {A} (a : A) : M A := fun w => (inr a, w).

Definition bind {A B} (m : M A) (k : A -> M B) : M B :=
  fun w =>
    match m w with
    | (inl e, w') => (inl e, w')
    | (inr a, w') => k a w'
    end.

Definition raise {A} (e : Exn) : M A := fun w => (inl e, w).

Declare Scope handler_scope.
Delimit Scope handler_scope with handler.
Notation "'let*' x := m 'in' k" := (bind m (fun x => k))
  (at level 10, x name, m at level 100, k at level 200) : handler_scope.
Notation "m ;; k" := (bind m (fun _ => k))
  (at level 100, k at level 200, right associativity) : handler_scope.
Local Open Scope handler_scope.

(** *** Python and library primitives *)

(** [x or d] on an [Optional[int]]: [None] and [0] are falsy. *)
Definition int_or (x : option Z) (d : Z) : Z :=
  match x with
  | None => d
  | Some v => if decide (v = 0) then d else v
  end.

(** A slice bound [i] against a sequence of length [len]. *)
Definition slice_index (i : Z) (len : nat) : nat :=
  if decide (i < 0) then Z.to_nat (Z.max 0 (i + Z.of_nat len))
  else Z.to_nat (Z.min i (Z.of_nat len)).

(** [l[i:]] *)
Definition slice_from {A} (i : Z) (l : list A) : list A :=
  drop (slice_index i (length l)) l.

(** [del l[:j]] *)
Definition del_upto {A} (j : Z) (l : list A) : list A :=
  drop (slice_index j (length l)) l.

Definition hex_digit (n : N) : ascii :=
  match n with
  | 0 => "0" | 1 => "1" | 2 => "2" | 3 => "3" | 4 => "4" | 5 => "5"
  | 6 => "6" | 7 => "7" | 8 => "8" | 9 => "9" | 10 => "a" | 11 => "b"
  | 12 => "c" | 13 => "d" | 14 => "e" | _ => "f"
  end%N%char.

(** [bytes.hex()]: two lower-case digits per byte. *)
Fixpoint hexlify (bs : list Byte.byte) : string :=
  match bs with
  | [] => ""
  | b :: bs' =>
      String (hex_digit (Byte.to_N b / 16))
        (String (hex_digit (Byte.to_N b mod 16)) (hexlify bs'))
  end.

(** [int(time.time())] (lines 47-48) *)
Definition now : M Z :=
  fun w => (inr (clock w (ticks w)),
            mkWorld (commands w) (events w) (clock w) (S (ticks w))
                    (urandom w) (drawn w)).

(** [secrets.token_hex(nbytes)]: [nbytes] fresh bytes of the random source,
    in hexadecimal. *)
Definition token_hex (nbytes : nat) : M string :=
  fun w => (inr (hexlify (map (urandom w) (seq (drawn w) nbytes))),
            mkWorld (commands w) (events w) (clock w) (ticks w)
                    (urandom w) (drawn w + nbytes)%nat).

Definition get_commands : M (gmap string Command) :=
  fun w => (inr (commands w), w).

Definition get_events : M (list Event) :=
  fun w => (inr (events w), w).

(** [commands[device_id] = cmd] *)
Definition set_command (device_id : string) (cmd : Command) : M unit :=
  fun w => (inr tt,
            mkWorld (<[device_id := cmd]> (commands w)) (events w) (clock w)
                    (ticks w) (urandom w) (drawn w)).

(** [events.append(e)] *)
Definition events_append (e : Event) : M unit :=
  fun w => (inr tt,
            mkWorld (commands w) (events w ++ [e]) (clock w) (ticks w)
                    (urandom w) (drawn w)).

(** [del events[:j]] *)
Definition events_del_upto (j : Z) : M unit :=
  fun w => (inr tt,
            mkWorld (commands w) (del_upto j (events w)) (clock w) (ticks w)
                    (urandom w) (drawn w)).

(** *** [main.py] *)

(** lines 51-55 *)
Definition ensure_device (device_id : string) : M unit :=
  if decide (DEVICE_KEYS !! device_id = None) then
    raise (HTTPException 404 "Unknown device_id")
  else
    let* cmds := get_commands in
    if decide (cmds !! device_id = None) then
      set_command device_id NONE_COMMAND
    else ret tt.

(** lines 69-71 *)
Definition root : M RootResponse :=
  let* t := now in
  ret {| root_ok := true; service := "cloud-lock-demo"; time := t |}.

(** lines 74-98 *)
Definition api_unlock (payload : UnlockRequest.t) (x_api_key : option string)
  : M UnlockResponse :=
  if decide (x_api_key ≠ Some ADMIN_API_KEY) then
    raise (HTTPException 401 "Invalid admin API key")
  else
    ensure_device (UnlockRequest.device_id payload) ;;
    let* req_id := token_hex 8 in
    let ttl := Z.max 3 (Z.min (int_or (UnlockRequest.ttl_seconds payload) 10) 60) in
    let* t := now in
    let exp := t + ttl in
    let* t_created := now in
    set_command (UnlockRequest.device_id payload)
      {| action := "unlock"; request_id := req_id;
         expires_at := exp; created_at := t_created |} ;;
    let* t_event := now in
    events_append
      (UnlockIssued t_event (UnlockRequest.device_id payload) req_id) ;;
    let* evs := get_events in
    (if decide (200 < Z.of_nat (length evs)) then events_del_upto 50
     else ret tt) ;;
    ret {| ur_ok := true;
           ur_device_id := UnlockRequest.device_id payload;
           ur_action := "unlock";
           ur_request_id := req_id;
           ur_expires_at := exp |}.

(** lines 101-112 *)
Definition api_command (device_id : string) : M CommandResponse :=
  ensure_device device_id ;;
  let* cmds := get_commands in
  let cmd := default NONE_COMMAND (cmds !! device_id) in
  if decide (action cmd ≠ "none") then
    let* t := now in
    if decide (t > expires_at cmd) then
      set_command device_id NONE_COMMAND ;;
      let* t_event := now in
      events_append (CommandExpired t_event device_id) ;;
      ret (ActionOnly "none")
    else ret (StoredCommand cmd)
  else ret (StoredCommand cmd).

(** lines 115-147 *)
Definition api_ack (payload : AckRequest.t) (x_device_key : option string)
  : M AckResponse :=
  ensure_device (AckRequest.device_id payload) ;;
  match DEVICE_KEYS !! AckRequest.device_id payload with
  | None => raise (KeyError (AckRequest.device_id payload))
  | Some expected =>
      if decide (x_device_key ≠ Some expected) then
        raise (HTTPException 401 "Invalid device key")
      else
        let* cmds := get_commands in
        (* [commands.get(device_id, {})]: [None] stands for [{}] *)
        let current := cmds !! AckRequest.device_id payload in
        if decide (request_id <$> current ≠ Some (AckRequest.request_id payload))
        then
          let* t_event := now in
          events_append
            (AckMismatch t_event (AckRequest.device_id payload)
               (AckRequest.request_id payload)
               (default "" (request_id <$> current))
               (AckRequest.status payload)) ;;
          ret {| ok := false; ack_detail := Some "request_id mismatch" |}
        else
          set_command (AckRequest.device_id payload) NONE_COMMAND ;;
          let* t_event := now in
          events_append
            (Ack t_event (AckRequest.device_id payload)
               (AckRequest.request_id payload) (AckRequest.status payload)) ;;
          ret {| ok := true; ack_detail := None |}
  end.

(** lines 150-155 *)
Definition api_events (x_api_key : option string) : M (list Event) :=
  if decide (x_api_key ≠ Some ADMIN_API_KEY) then
    raise (HTTPException 401 "Invalid admin API key")
  else
    let* evs := get_events in
    ret (slice_from (-100) evs).

(** ** Requests and runs of the service *)

Inductive Request :=
| GetRoot
| PostUnlock (payload : UnlockRequest.t) (x_api_key : option string)
| GetCommand (device_id : string)
| PostAck (payload : AckRequest.t) (x_device_key : option string)
| GetEvents (x_api_key : option string).

(** The state a request leaves behind, whether it returns or raises. *)
Definition serve (r : Request) (w : World) : World :=
  match r with
  | GetRoot => snd (root w)
  | PostUnlock payload key => snd (api_unlock payload key w)
  | GetCommand d => snd (api_command d w)
  | PostAck payload key => snd (api_ack payload key w)
  | GetEvents key => snd (api_events key w)
  end.

Definition serve_all (rs : list Request) (w : World) : World :=
  fold_left (fun w r => serve r w) rs w.

(** The module right after import: [commands = {}], [events = []]. *)
Definition boot (clk : nat -> Z) (rnd : nat -> Byte.byte) : World :=
  mkWorld ∅ [] clk 0 rnd 0.

(** ** Vocabulary of the statements *)

(** The command a device holds; a device without an entry in [commands]
    holds what [ensure_device] would store for it. *)
Definition slot (d : string) (cmds : gmap string Command) : Command :=
  default NONE_COMMAND (cmds !! d).

(** [commands] once [ensure_device d] has run. *)
Definition with_slot (d : string) (cmds : gmap string Command)
  : gmap string Command :=
  if decide (cmds !! d = None) then <[d := NONE_COMMAND]> cmds else cmds.

(** The ["ok"] field of an acknowledgement that was answered. *)
Definition accepted (r : Exn + AckResponse) : option bool :=
  match r with
  | inr a => Some (ok a)
  | inl _ => None
  end.

(** The response of an issue that was answered. *)
Definition accepted_unlock (r : Exn + UnlockResponse) : option UnlockResponse :=
  match r with
  | inr resp => Some resp
  | inl _ => None
  end.

(** The invariant of the data model on one command. *)
Definition slot_ok (c : Command) : Prop :=
  request_id c ≠ "" ↔ action c ≠ "none".

Definition slots_ok (w : World) : Prop :=
  ∀ d c, commands w !! d = Some c → slot_ok c.

(** [n] requests [GET /api/command?device_id=d] in a row. *)
Fixpoint polls (n : nat) (d : string) (w : World) : World :=
  match n with
  | O => w
  | S n' => polls n' d (snd (api_command d w))
  end.

(** [n] acknowledgements of the same payload in a row. *)
Fixpoint acks (n : nat) (payload : AckRequest.t) (key : option string)
  (w : World) : World :=
  match n with
  | O => w
  | S n' => acks n' payload key (snd (api_ack payload key w))
  end.

(** ** A concrete run, for the examples

    A clock that advances by one second per reading and a random source
    that counts, so that successive tokens differ. *)

Definition second_clock : nat -> Z := fun n => Z.of_nat n.

Definition counting_urandom : nat -> Byte.byte :=
  fun n => default Byte.x00 (Byte.of_N (N.of_nat n)).

Definition lock1_key : string := "CHANGE_ME_DEVICE_KEY_LOCK1".

Definition fresh_world : World := boot second_clock counting_urandom.

(** [lock1] holds a pending command, issued with the default TTL. *)
Definition pending_world : World :=
  serve (PostUnlock (UnlockRequest.of_device "lock1") (Some ADMIN_API_KEY))
    fresh_world.

(** The first scenario of the specification: issue with [ttl_seconds = 5]
    at time 0, poll at time 2, poll at time 6, acknowledge at time 7. The
    issue reads the clock three times, the expiring poll twice. *)
Definition scenario_clock : nat -> Z :=
  fun n => nth n [0; 0; 0; 2; 6; 6; 7] 7.

Definition scenario_issued : World :=
  serve (PostUnlock {| UnlockRequest.device_id := "lock1";
                       UnlockRequest.ttl_seconds := Some 5 |}
           (Some ADMIN_API_KEY))
    (boot scenario_clock counting_urandom).

Definition scenario_command : Command :=
  {| action := "unlock"; request_id := "0001020304050607";
     expires_at := 5; created_at := 0 |}.

(** A second issue for [lock1] while the first command is pending. *)
Definition overwritten_world : World :=
  serve (PostUnlock (UnlockRequest.of_device "lock1") (Some ADMIN_API_KEY))
    pending_world.

Definition first_response : UnlockResponse :=
  {| ur_ok := true; ur_device_id := "lock1"; ur_action := "unlock";
     ur_request_id := "0001020304050607"; ur_expires_at := 10 |}.

Definition second_response : UnlockResponse :=
  {| ur_ok := true; ur_device_id := "lock1"; ur_action := "unlock";
     ur_request_id := "08090a0b0c0d0e0f"; ur_expires_at := 13 |}.

(** An issue for [lock1] with [ttl_seconds = -5]. *)
Definition clamped_world : World :=
  serve (PostUnlock {| UnlockRequest.device_id := "lock1";
                       UnlockRequest.ttl_seconds := Some (-5) |}
           (Some ADMIN_API_KEY))
    fresh_world.

(** ** Vocabulary of the statements about whole runs *)

(** The value under the key ["device_id"] of an event. *)
Definition ev_device (e : Event) : string :=
  match e with
  | UnlockIssued _ d _ => d
  | CommandExpired _ d => d
  | AckMismatch _ d _ _ _ => d
  | Ack _ d _ _ => d
  end.

(** The device a request names, if it names one. *)
Definition target (r : Request) : option string :=
  match r with
  | PostUnlock p _ => Some (UnlockRequest.device_id p)
  | GetCommand d => Some d
  | PostAck p _ => Some (AckRequest.device_id p)
  | GetRoot => None
  | GetEvents _ => None
  end.

(** The handlers that call [events.append] without the length check that
    follows it in [api_unlock]. *)
Definition appends_untrimmed (r : Request) : bool :=
  match r with
  | GetCommand _ => true
  | PostAck _ _ => true
  | _ => false
  end.

(** The digits [bytes.hex()] writes. *)
Definition is_lower_hex (c : ascii) : bool :=
  existsb (Ascii.eqb c) (list_ascii_of_string "0123456789abcdef").

(** A log of exactly 200 events, for the examples: 200 acknowledgements of
    an id that is not the stored one. *)
Definition full_log_world : World :=
  acks 200 (AckRequest.of_ids "lock1" "stale") (Some lock1_key) fresh_world.

(** The first scenario after its poll at time 2: the next reading of the
    clock, 6, is past the [expires_at] of the command, 5. *)
Definition polled_world : World :=
  serve (GetCommand "lock1") scenario_issued.

(** * Properties *)

(** ** Slots *)

Lemma with_slot_lookup (d : string) (cmds : gmap string Command) :
  with_slot d cmds !! d = Some (slot d cmds).
Proof.
  unfold with_slot, slot. case_decide as Hd.
  - rewrite lookup_insert_eq, Hd. reflexivity.
  - destruct (cmds !! d) as [c|]; [reflexivity | congruence].
Qed.

Lemma with_slot_present (d : string) (cmds : gmap string Command) :
  is_Some (cmds !! d) → with_slot d cmds = cmds.
Proof.
  intros [c Hc]. unfold with_slot. case_decide; congruence.
Qed.

Lemma slot_with_slot (d d' : string) (cmds : gmap string Command) :
  slot d' (with_slot d cmds) = slot d' cmds.
Proof.
  unfold slot at 1. destruct (decide (d = d')) as [->|Hne].
  - rewrite with_slot_lookup. reflexivity.
  - unfold with_slot. case_decide; [|reflexivity].
    rewrite lookup_insert_ne by assumption. reflexivity.
Qed.

Lemma slot_insert (d : string) (c : Command) (cmds : gmap string Command) :
  slot d (<[d := c]> cmds) = c.
Proof. unfold slot. rewrite lookup_insert_eq. reflexivity. Qed.

Lemma insert_with_slot (d : string) (c : Command) (cmds : gmap string Command) :
  <[d := c]> (with_slot d cmds) = <[d := c]> cmds.
Proof.
  unfold with_slot. case_decide; [|reflexivity]. apply insert_insert_eq.
Qed.

(** ** [ensure_device] *)

Lemma ensure_device_unknown (d : string) (w : World) :
  DEVICE_KEYS !! d = None →
  ensure_device d w = (inl (HTTPException 404 "Unknown device_id"), w).
Proof.
  intros Hd. unfold ensure_device. case_decide; [reflexivity | contradiction].
Qed.

Lemma ensure_device_known (d key : string) (w : World) :
  DEVICE_KEYS !! d = Some key →
  ensure_device d w =
    (inr tt, mkWorld (with_slot d (commands w)) (events w) (clock w)
               (ticks w) (urandom w) (drawn w)).
Proof.
  intros Hd. unfold ensure_device, with_slot, bind, get_commands.
  case_decide; [congruence|].
  case_decide; [reflexivity|]. destruct w; reflexivity.
Qed.

(** ** [api_ack], case by case *)

Lemma api_ack_unknown (p : AckRequest.t) (key : option string) (w : World) :
  DEVICE_KEYS !! AckRequest.device_id p = None →
  api_ack p key w = (inl (HTTPException 404 "Unknown device_id"), w).
Proof.
  intros Hd. unfold api_ack, bind. rewrite ensure_device_unknown by assumption.
  reflexivity.
Qed.

Lemma api_ack_accepts (p : AckRequest.t) (key : string) (w : World) :
  DEVICE_KEYS !! AckRequest.device_id p = Some key →
  request_id (slot (AckRequest.device_id p) (commands w))
    = AckRequest.request_id p →
  api_ack p (Some key) w =
    (inr {| ok := true; ack_detail := None |},
     mkWorld (<[AckRequest.device_id p := NONE_COMMAND]> (commands w))
       (events w ++ [Ack (clock w (ticks w)) (AckRequest.device_id p)
                       (AckRequest.request_id p) (AckRequest.status p)])
       (clock w) (S (ticks w)) (urandom w) (drawn w)).
Proof.
  intros Hd Hid. unfold api_ack, bind.
  rewrite (ensure_device_known _ _ _ Hd), Hd.
  case_decide as Hk; [congruence|].
  unfold get_commands; cbn [commands].
  rewrite with_slot_lookup; cbn [fmap option_fmap option_map].
  case_decide as Hr; [congruence|].
  unfold set_command, now, events_append, ret; cbn.
  rewrite insert_with_slot. reflexivity.
Qed.

Lemma api_ack_rejects (p : AckRequest.t) (key : string) (w : World) :
  DEVICE_KEYS !! AckRequest.device_id p = Some key →
  request_id (slot (AckRequest.device_id p) (commands w))
    ≠ AckRequest.request_id p →
  api_ack p (Some key) w =
    (inr {| ok := false; ack_detail := Some "request_id mismatch" |},
     mkWorld (with_slot (AckRequest.device_id p) (commands w))
       (events w ++ [AckMismatch (clock w (ticks w)) (AckRequest.device_id p)
                       (AckRequest.request_id p)
                       (request_id (slot (AckRequest.device_id p) (commands w)))
                       (AckRequest.status p)])
       (clock w) (S (ticks w)) (urandom w) (drawn w)).
Proof.
  intros Hd Hid. unfold api_ack, bind.
  rewrite (ensure_device_known _ _ _ Hd), Hd.
  case_decide as Hk; [congruence|].
  unfold get_commands; cbn [commands].
  rewrite with_slot_lookup; cbn [fmap option_fmap option_map].
  case_decide as Hr; [|congruence].
  reflexivity.
Qed.

(** ** Acknowledgement *)

(** C1, as amended: an acknowledgement by a known device with its key whose
    [request_id] equals the stored one returns [{"ok": True}], stores the
    NONE command (empty [request_id], zero [expires_at]) for the device and
    appends one ["ack"] event carrying the submitted [status]; when that
    [request_id] is not empty, the same acknowledgement performed again is
    answered [{"ok": False, ...}]. *)
Theorem api_ack_match_resets (p : AckRequest.t) (key : string) (w : World) :
  DEVICE_KEYS !! AckRequest.device_id p = Some key →
  request_id (slot (AckRequest.device_id p) (commands w))
    = AckRequest.request_id p →
  ∃ w' ts,
    api_ack p (Some key) w = (inr {| ok := true; ack_detail := None |}, w') ∧
    commands w' = <[AckRequest.device_id p := NONE_COMMAND]> (commands w) ∧
    commands w' !! AckRequest.device_id p = Some NONE_COMMAND ∧
    request_id NONE_COMMAND = "" ∧ expires_at NONE_COMMAND = 0 ∧
    events w' = (events w ++ [Ack ts (AckRequest.device_id p)
                                (AckRequest.request_id p) (AckRequest.status p)])%list ∧
    (AckRequest.request_id p ≠ "" →
     ∀ status',
       fst (api_ack {| AckRequest.device_id := AckRequest.device_id p;
                       AckRequest.request_id := AckRequest.request_id p;
                       AckRequest.status := status' |} (Some key) w')
       = inr {| ok := false; ack_detail := Some "request_id mismatch" |}).
Proof.
  intros Hd Hid. eexists _, _.
  split; [apply api_ack_accepts; assumption|]. cbn [commands events].
  split; [reflexivity|].
  split; [apply lookup_insert_eq|].
  do 3 (split; [reflexivity|]).
  intros Hne status'. rewrite api_ack_rejects; [reflexivity | exact Hd |].
  cbn. rewrite slot_insert. cbn. congruence.
Qed.

Lemma api_ack_match_resets_witness :
  DEVICE_KEYS !! "lock1" = Some lock1_key ∧
  request_id (slot "lock1" (commands pending_world)) = "0001020304050607" ∧
  ∃ w' ts,
    api_ack (AckRequest.of_ids "lock1" "0001020304050607") (Some lock1_key)
      pending_world
    = (inr {| ok := true; ack_detail := None |}, w') ∧
    commands w' = <["lock1" := NONE_COMMAND]> (commands pending_world) ∧
    commands w' !! "lock1" = Some NONE_COMMAND ∧
    request_id NONE_COMMAND = "" ∧ expires_at NONE_COMMAND = 0 ∧
    events w' = (events pending_world
                   ++ [Ack ts "lock1" "0001020304050607" "done"])%list ∧
    ("0001020304050607" ≠ "" →
     ∀ status',
       fst (api_ack {| AckRequest.device_id := "lock1";
                       AckRequest.request_id := "0001020304050607";
                       AckRequest.status := status' |} (Some lock1_key) w')
       = inr {| ok := false; ack_detail := Some "request_id mismatch" |}).
Proof.
  split; [vm_compute; reflexivity|].
  split; [vm_compute; reflexivity|].
  apply (api_ack_match_resets (AckRequest.of_ids "lock1" "0001020304050607")
           lock1_key pending_world); vm_compute; reflexivity.
Defined.

(** C1, as stated, fails for the empty [request_id]: on a device that
    holds no command the acknowledgement of [""] matches, and it matches
    again when repeated. *)
Lemma api_ack_repeated_empty_id_accepted :
  ¬ (∀ (p : AckRequest.t) (key : string) (w : World),
       DEVICE_KEYS !! AckRequest.device_id p = Some key →
       request_id (slot (AckRequest.device_id p) (commands w))
         = AckRequest.request_id p →
       accepted (fst (api_ack p (Some key) (snd (api_ack p (Some key) w))))
       = Some false).
Proof.
  intros H.
  specialize (H (AckRequest.of_ids "lock1" "") lock1_key fresh_world).
  vm_compute in H. specialize (H eq_refl eq_refl). discriminate H.
Qed.

(** C2: an acknowledgement by a known device with its key whose
    [request_id] differs from the stored one returns [{"ok": False, ...}],
    leaves the command of every device as it was (an entry of [commands]
    that exists is not touched) and appends exactly one ["ack_mismatch"]
    event with the submitted id, the stored id and the submitted status. *)
Theorem api_ack_mismatch_frame (p : AckRequest.t) (key : string) (w : World) :
  DEVICE_KEYS !! AckRequest.device_id p = Some key →
  request_id (slot (AckRequest.device_id p) (commands w))
    ≠ AckRequest.request_id p →
  ∃ w' ts,
    api_ack p (Some key) w
    = (inr {| ok := false; ack_detail := Some "request_id mismatch" |}, w') ∧
    (∀ d, slot d (commands w') = slot d (commands w)) ∧
    (is_Some (commands w !! AckRequest.device_id p) →
     commands w' = commands w) ∧
    events w' =
      (events w ++ [AckMismatch ts (AckRequest.device_id p)
                      (AckRequest.request_id p)
                      (request_id (slot (AckRequest.device_id p) (commands w)))
                      (AckRequest.status p)])%list ∧
    ev_type (AckMismatch ts (AckRequest.device_id p)
               (AckRequest.request_id p)
               (request_id (slot (AckRequest.device_id p) (commands w)))
               (AckRequest.status p)) = "ack_mismatch".
Proof.
  intros Hd Hid. eexists _, _.
  split; [apply api_ack_rejects; assumption|]. cbn [commands events].
  split; [intros d; apply slot_with_slot|].
  split; [apply with_slot_present|].
  split; reflexivity.
Qed.

Lemma api_ack_mismatch_frame_witness :
  DEVICE_KEYS !! "lock1" = Some lock1_key ∧
  request_id (slot "lock1" (commands pending_world)) ≠ "stale" ∧
  ∃ w' ts,
    api_ack (AckRequest.of_ids "lock1" "stale") (Some lock1_key) pending_world
    = (inr {| ok := false; ack_detail := Some "request_id mismatch" |}, w') ∧
    (∀ d, slot d (commands w') = slot d (commands pending_world)) ∧
    (is_Some (commands pending_world !! "lock1") →
     commands w' = commands pending_world) ∧
    events w' =
      (events pending_world
       ++ [AckMismatch ts "lock1" "stale"
             (request_id (slot "lock1" (commands pending_world))) "done"])%list ∧
    ev_type (AckMismatch ts "lock1" "stale"
               (request_id (slot "lock1" (commands pending_world))) "done")
    = "ack_mismatch".
Proof.
  split; [vm_compute; reflexivity|].
  split; [vm_compute; discriminate|].
  apply (api_ack_mismatch_frame (AckRequest.of_ids "lock1" "stale")
           lock1_key pending_world);
    [vm_compute; reflexivity | vm_compute; discriminate].
Defined.

(** C10: on a known device whose stored [request_id] is the empty string,
    an acknowledgement with the device key and an empty [request_id] is a
    match: it returns [{"ok": True}] and appends an ["ack"] event. *)
Theorem api_ack_empty_id_matches
  (d status key : string) (w : World) :
  DEVICE_KEYS !! d = Some key →
  request_id (slot d (commands w)) = "" →
  ∃ w' ts,
    api_ack {| AckRequest.device_id := d; AckRequest.request_id := "";
               AckRequest.status := status |} (Some key) w
    = (inr {| ok := true; ack_detail := None |}, w') ∧
    events w' = (events w ++ [Ack ts d "" status])%list ∧
    ev_type (Ack ts d "" status) = "ack".
Proof.
  intros Hd Hid. eexists _, _.
  split; [apply api_ack_accepts; cbn; assumption|].
  split; reflexivity.
Qed.

Lemma api_ack_empty_id_matches_witness :
  DEVICE_KEYS !! "lock1" = Some lock1_key ∧
  request_id (slot "lock1" (commands fresh_world)) = "" ∧
  commands fresh_world = ∅ ∧
  ∃ w' ts,
    api_ack {| AckRequest.device_id := "lock1"; AckRequest.request_id := "";
               AckRequest.status := "done" |} (Some lock1_key) fresh_world
    = (inr {| ok := true; ack_detail := None |}, w') ∧
    events w' = (events fresh_world ++ [Ack ts "lock1" "" "done"])%list ∧
    ev_type (Ack ts "lock1" "" "done") = "ack".
Proof.
  split; [vm_compute; reflexivity|].
  split; [vm_compute; reflexivity|].
  split; [reflexivity|].
  apply (api_ack_empty_id_matches "lock1" "done" lock1_key fresh_world);
    vm_compute; reflexivity.
Defined.

(** ** [api_command], case by case *)

(** Runs [ensure_device] and the lookup of the stored command for a device
    known by [Hd]. *)
Ltac poll_known_device Hd :=
  unfold api_command, bind;
  rewrite (ensure_device_known _ _ _ Hd);
  unfold get_commands; cbn [commands];
  rewrite with_slot_lookup; cbn [default from_option id].

Lemma api_command_unknown (d : string) (w : World) :
  DEVICE_KEYS !! d = None →
  api_command d w = (inl (HTTPException 404 "Unknown device_id"), w).
Proof.
  intros Hd. unfold api_command, bind.
  rewrite ensure_device_unknown by assumption. reflexivity.
Qed.

Lemma api_command_idle (d key : string) (w : World) :
  DEVICE_KEYS !! d = Some key →
  action (slot d (commands w)) = "none" →
  api_command d w =
    (inr (StoredCommand (slot d (commands w))),
     mkWorld (with_slot d (commands w)) (events w) (clock w) (ticks w)
       (urandom w) (drawn w)).
Proof.
  intros Hd Hact. poll_known_device Hd.
  case_decide; [contradiction | reflexivity].
Qed.

Lemma api_command_live (d key : string) (w : World) :
  DEVICE_KEYS !! d = Some key →
  action (slot d (commands w)) ≠ "none" →
  clock w (ticks w) ≤ expires_at (slot d (commands w)) →
  api_command d w =
    (inr (StoredCommand (slot d (commands w))),
     mkWorld (with_slot d (commands w)) (events w) (clock w) (S (ticks w))
       (urandom w) (drawn w)).
Proof.
  intros Hd Hact Ht. poll_known_device Hd.
  case_decide; [|contradiction].
  unfold now; cbn [clock ticks].
  case_decide; [lia | reflexivity].
Qed.

Lemma api_command_stale (d key : string) (w : World) :
  DEVICE_KEYS !! d = Some key →
  action (slot d (commands w)) ≠ "none" →
  clock w (ticks w) > expires_at (slot d (commands w)) →
  api_command d w =
    (inr (ActionOnly "none"),
     mkWorld (<[d := NONE_COMMAND]> (commands w))
       (events w ++ [CommandExpired (clock w (S (ticks w))) d])
       (clock w) (S (S (ticks w))) (urandom w) (drawn w)).
Proof.
  intros Hd Hact Ht. poll_known_device Hd.
  case_decide; [|contradiction].
  unfold now; cbn [clock ticks].
  case_decide; [|lia].
  unfold set_command, events_append, ret; cbn.
  rewrite insert_with_slot. reflexivity.
Qed.

(** A device whose entry is the NONE command can be polled for ever:
    nothing moves. *)
Lemma api_command_idle_fixpoint (d key : string) (c : Command) (w : World) :
  DEVICE_KEYS !! d = Some key →
  commands w !! d = Some c →
  action c = "none" →
  api_command d w = (inr (StoredCommand c), w).
Proof.
  intros Hd Hc Hact.
  assert (Hs : slot d (commands w) = c) by (unfold slot; rewrite Hc; reflexivity).
  rewrite (api_command_idle d key) by (rewrite ?Hs; assumption).
  rewrite Hs, with_slot_present by (rewrite Hc; eexists; reflexivity).
  destruct w; reflexivity.
Qed.

Lemma polls_idle (n : nat) (d key : string) (c : Command) (w : World) :
  DEVICE_KEYS !! d = Some key →
  commands w !! d = Some c →
  action c = "none" →
  polls n d w = w.
Proof.
  intros Hd Hc Hact. induction n as [|n IH]; [reflexivity|].
  cbn [polls].
  rewrite (api_command_idle_fixpoint d key c) by assumption. exact IH.
Qed.

(** ** Polling *)

(** C3: for a known device that holds a command whose action is not
    ["none"]: a poll that reads a time greater than [expires_at] stores the
    NONE command, appends exactly one ["command_expired"] event and returns
    [{"action": "none"}], and the polls that follow return the NONE command
    and leave [commands] and [events] as they are; a poll that reads a time
    not greater than [expires_at] returns the stored command and changes
    neither [commands] nor [events]. Any poll of a device whose command has
    action ["none"] returns that command and appends nothing. *)
Theorem api_command_lazy_expiry (d key : string) (c : Command) (w : World) :
  DEVICE_KEYS !! d = Some key →
  commands w !! d = Some c →
  action c ≠ "none" →
  (clock w (ticks w) > expires_at c →
   ∃ w' ts,
     api_command d w = (inr (ActionOnly "none"), w') ∧
     resp_action (ActionOnly "none") = "none" ∧
     commands w' = <[d := NONE_COMMAND]> (commands w) ∧
     events w' = events w ++ [CommandExpired ts d] ∧
     ev_type (CommandExpired ts d) = "command_expired" ∧
     ∀ n,
       api_command d (polls n d w')
       = (inr (StoredCommand NONE_COMMAND), polls n d w') ∧
       commands (polls n d w') = commands w' ∧
       events (polls n d w') = events w') ∧
  (clock w (ticks w) ≤ expires_at c →
   ∃ w',
     api_command d w = (inr (StoredCommand c), w') ∧
     commands w' = commands w ∧
     events w' = events w) ∧
  (∀ w0 : World,
     action (slot d (commands w0)) = "none" →
     ∃ w1,
       api_command d w0 = (inr (StoredCommand (slot d (commands w0))), w1) ∧
       (∀ d', slot d' (commands w1) = slot d' (commands w0)) ∧
       events w1 = events w0).
Proof.
  intros Hd Hc Hact.
  assert (Hs : slot d (commands w) = c) by (unfold slot; rewrite Hc; reflexivity).
  split; [|split].
  - intros Ht. eexists _, _.
    split; [apply (api_command_stale d key); rewrite ?Hs; assumption|].
    cbn [commands events]. do 4 (split; [reflexivity|]).
    intros n.
    rewrite (polls_idle n d key NONE_COMMAND);
      [| assumption | apply lookup_insert_eq | reflexivity].
    split; [|split; reflexivity].
    apply (api_command_idle_fixpoint d key);
      [assumption | apply lookup_insert_eq | reflexivity].
  - intros Ht. eexists.
    split; [rewrite <- Hs; apply (api_command_live d key); rewrite ?Hs; assumption|].
    cbn [commands events]. split; [|reflexivity].
    apply with_slot_present. rewrite Hc. eexists; reflexivity.
  - intros w0 Hidle. eexists.
    split; [apply (api_command_idle d key); assumption|].
    cbn [commands events]. split; [|reflexivity].
    intros d'. apply slot_with_slot.
Qed.

Lemma api_command_lazy_expiry_witness :
  DEVICE_KEYS !! "lock1" = Some lock1_key ∧
  commands scenario_issued !! "lock1" = Some scenario_command ∧
  action scenario_command ≠ "none" ∧
  ∃ w',
    api_command "lock1" scenario_issued
    = (inr (StoredCommand scenario_command), w') ∧
    commands w' = commands scenario_issued ∧
    events w' = events scenario_issued.
Proof.
  assert (H1 : DEVICE_KEYS !! "lock1" = Some lock1_key)
    by (vm_compute; reflexivity).
  assert (H2 : commands scenario_issued !! "lock1" = Some scenario_command)
    by (vm_compute; reflexivity).
  assert (H3 : action scenario_command ≠ "none")
    by (vm_compute; discriminate).
  do 3 (split; [assumption|]).
  destruct (api_command_lazy_expiry "lock1" lock1_key scenario_command
              scenario_issued H1 H2 H3) as (_ & Hlive & _).
  apply Hlive. vm_compute. discriminate.
Defined.

(** The scenario, run: the poll at time 2 returns the command, the poll at
    time 6 expires it, the acknowledgement at time 7 is a mismatch. *)
Example scenario_issue_poll_expire_ack :
  let w1 := scenario_issued in
  let w2 := snd (api_command "lock1" w1) in
  let w3 := snd (api_command "lock1" w2) in
  let w4 :=
    snd (api_ack (AckRequest.of_ids "lock1" "0001020304050607")
           (Some lock1_key) w3) in
  fst (api_command "lock1" w1) = inr (StoredCommand scenario_command) ∧
  fst (api_command "lock1" w2) = inr (ActionOnly "none") ∧
  fst (api_command "lock1" w3) = inr (StoredCommand NONE_COMMAND) ∧
  accepted (fst (api_ack (AckRequest.of_ids "lock1" "0001020304050607")
                   (Some lock1_key) w3)) = Some false ∧
  events w4 =
    [UnlockIssued 0 "lock1" "0001020304050607";
     CommandExpired 6 "lock1";
     AckMismatch 7 "lock1" "0001020304050607" "" "done"].
Proof. vm_compute. repeat split. Qed.

(** ** [api_unlock], case by case *)

Lemma api_unlock_unauthorized
  (p : UnlockRequest.t) (key : option string) (w : World) :
  key ≠ Some ADMIN_API_KEY →
  api_unlock p key w = (inl (HTTPException 401 "Invalid admin API key"), w).
Proof.
  intros Hk. unfold api_unlock. case_decide; [reflexivity | contradiction].
Qed.

Lemma api_unlock_unknown (p : UnlockRequest.t) (w : World) :
  DEVICE_KEYS !! UnlockRequest.device_id p = None →
  api_unlock p (Some ADMIN_API_KEY) w
  = (inl (HTTPException 404 "Unknown device_id"), w).
Proof.
  intros Hd. unfold api_unlock. case_decide; [congruence|].
  unfold bind. rewrite ensure_device_unknown by assumption. reflexivity.
Qed.

Lemma api_unlock_issues (p : UnlockRequest.t) (key : string) (w : World) :
  DEVICE_KEYS !! UnlockRequest.device_id p = Some key →
  api_unlock p (Some ADMIN_API_KEY) w =
    let d := UnlockRequest.device_id p in
    let req_id := hexlify (map (urandom w) (seq (drawn w) 8)) in
    let exp :=
      clock w (ticks w)
      + Z.max 3 (Z.min (int_or (UnlockRequest.ttl_seconds p) 10) 60) in
    let evs :=
      events w ++ [UnlockIssued (clock w (S (S (ticks w)))) d req_id] in
    (inr {| ur_ok := true; ur_device_id := d; ur_action := "unlock";
            ur_request_id := req_id; ur_expires_at := exp |},
     mkWorld
       (<[d := {| action := "unlock"; request_id := req_id;
                  expires_at := exp;
                  created_at := clock w (S (ticks w)) |}]> (commands w))
       (if decide (200 < Z.of_nat (length evs)) then del_upto 50 evs else evs)
       (clock w) (S (S (S (ticks w)))) (urandom w) (drawn w + 8)%nat).
Proof.
  intros Hd. unfold api_unlock. case_decide; [congruence|].
  unfold bind. rewrite (ensure_device_known _ _ _ Hd).
  unfold token_hex, now, set_command, events_append, get_events,
    events_del_upto, ret; cbn.
  rewrite insert_with_slot.
  case_decide; reflexivity.
Qed.

(** A call that returns was made with the admin key for a known device. *)
Lemma api_unlock_returns_inv
  (p : UnlockRequest.t) (key : option string) (w w' : World)
  (resp : UnlockResponse) :
  api_unlock p key w = (inr resp, w') →
  key = Some ADMIN_API_KEY ∧ is_Some (DEVICE_KEYS !! UnlockRequest.device_id p).
Proof.
  intros Hret.
  destruct (decide (key = Some ADMIN_API_KEY)) as [->|Hk].
  - split; [reflexivity|].
    destruct (DEVICE_KEYS !! UnlockRequest.device_id p) as [k|] eqn:Hd;
      [eexists; reflexivity|].
    rewrite api_unlock_unknown in Hret by assumption. discriminate.
  - rewrite api_unlock_unauthorized in Hret by assumption. discriminate.
Qed.

(** ** Issuing *)

(** C4: whatever [ttl_seconds] the body carries (negative, zero, above 60,
    [None]), a call of [api_unlock] that returns answers an [expires_at]
    between [now + 3] and [now + 60], where [now] is the time read when the
    expiry is computed; the stored command carries the same [expires_at]. *)
Theorem api_unlock_expiry_clamped
  (p : UnlockRequest.t) (key : option string) (w w' : World)
  (resp : UnlockResponse) :
  api_unlock p key w = (inr resp, w') →
  clock w (ticks w) + 3 ≤ ur_expires_at resp ≤ clock w (ticks w) + 60 ∧
  expires_at <$> commands w' !! UnlockRequest.device_id p
  = Some (ur_expires_at resp).
Proof.
  intros Hret.
  destruct (api_unlock_returns_inv _ _ _ _ _ Hret) as [-> [k Hd]].
  rewrite (api_unlock_issues _ _ _ Hd) in Hret. cbv zeta in Hret.
  injection Hret as <- <-. cbn [ur_expires_at commands].
  split; [lia|].
  rewrite lookup_insert_eq. reflexivity.
Qed.

Lemma api_unlock_expiry_clamped_witness :
  api_unlock {| UnlockRequest.device_id := "lock1";
                UnlockRequest.ttl_seconds := Some (-5) |}
    (Some ADMIN_API_KEY) fresh_world
  = (inr {| ur_ok := true; ur_device_id := "lock1"; ur_action := "unlock";
            ur_request_id := "0001020304050607"; ur_expires_at := 3 |},
     clamped_world) ∧
  clock fresh_world (ticks fresh_world) + 3 ≤ 3
    ≤ clock fresh_world (ticks fresh_world) + 60 ∧
  expires_at <$> commands clamped_world !! "lock1" = Some 3.
Proof.
  assert (H : api_unlock {| UnlockRequest.device_id := "lock1";
                            UnlockRequest.ttl_seconds := Some (-5) |}
                (Some ADMIN_API_KEY) fresh_world
              = (inr {| ur_ok := true; ur_device_id := "lock1";
                        ur_action := "unlock";
                        ur_request_id := "0001020304050607";
                        ur_expires_at := 3 |}, clamped_world))
    by (vm_compute; reflexivity).
  split; [exact H|].
  exact (api_unlock_expiry_clamped _ _ _ _ _ H).
Defined.

(** The inputs the specification lists, at time 0: [-5], [0], [1000], a
    missing value, and one value inside the bound. *)
Example api_unlock_ttl_samples :
  map (fun ttl =>
         ur_expires_at <$>
           (accepted_unlock
              (fst (api_unlock {| UnlockRequest.device_id := "lock1";
                                  UnlockRequest.ttl_seconds := ttl |}
                      (Some ADMIN_API_KEY) fresh_world))))
      [Some (-5); Some 0; Some 1000; None; Some 42]
  = [Some 3; Some 10; Some 60; Some 10; Some 42].
Proof. vm_compute. reflexivity. Qed.

(** C7: when two issues for the same device follow each other and return
    the ids [R1] and then [R2], distinct, the slot holds the second
    command only: an acknowledgement of [R1] returns [{"ok": False, ...}]
    and leaves [commands] as it is, and an acknowledgement of [R2] (after
    it, or in its place) returns [{"ok": True}] and stores the NONE
    command. *)
Theorem last_issued_wins
  (p1 p2 : UnlockRequest.t) (key status : string) (w w1 w2 : World)
  (r1 r2 : UnlockResponse) :
  UnlockRequest.device_id p2 = UnlockRequest.device_id p1 →
  DEVICE_KEYS !! UnlockRequest.device_id p1 = Some key →
  api_unlock p1 (Some ADMIN_API_KEY) w = (inr r1, w1) →
  api_unlock p2 (Some ADMIN_API_KEY) w1 = (inr r2, w2) →
  ur_request_id r1 ≠ ur_request_id r2 →
  (action <$> commands w1 !! UnlockRequest.device_id p1 = Some "unlock" ∧
   request_id <$> commands w1 !! UnlockRequest.device_id p1
   = Some (ur_request_id r1)) ∧
  commands w2 !! UnlockRequest.device_id p1
  = Some {| action := "unlock"; request_id := ur_request_id r2;
            expires_at := ur_expires_at r2;
            created_at := clock w1 (S (ticks w1)) |} ∧
  ∃ w3 w4,
    api_ack {| AckRequest.device_id := UnlockRequest.device_id p1;
               AckRequest.request_id := ur_request_id r1;
               AckRequest.status := status |} (Some key) w2
    = (inr {| ok := false; ack_detail := Some "request_id mismatch" |}, w3) ∧
    commands w3 = commands w2 ∧
    api_ack {| AckRequest.device_id := UnlockRequest.device_id p1;
               AckRequest.request_id := ur_request_id r2;
               AckRequest.status := status |} (Some key) w3
    = (inr {| ok := true; ack_detail := None |}, w4) ∧
    commands w4 !! UnlockRequest.device_id p1 = Some NONE_COMMAND ∧
    fst (api_ack {| AckRequest.device_id := UnlockRequest.device_id p1;
                    AckRequest.request_id := ur_request_id r2;
                    AckRequest.status := status |} (Some key) w2)
    = inr {| ok := true; ack_detail := None |}.
Proof.
  intros Hsame Hd H1 H2 Hne.
  rewrite (api_unlock_issues _ _ _ Hd) in H1. cbv zeta in H1.
  injection H1 as <- <-.
  assert (Hd2 : DEVICE_KEYS !! UnlockRequest.device_id p2 = Some key)
    by (rewrite Hsame; exact Hd).
  rewrite (api_unlock_issues _ _ _ Hd2) in H2. cbv zeta in H2.
  rewrite Hsame in H2. injection H2 as <- <-.
  cbn [ur_request_id ur_expires_at commands clock ticks urandom drawn] in *.
  split; [rewrite lookup_insert_eq; split; reflexivity|].
  split; [rewrite lookup_insert_eq; reflexivity|].
  set (d := UnlockRequest.device_id p1) in *.
  set (R1 := hexlify (map (urandom w) (seq (drawn w) 8))) in *.
  set (R2 := hexlify (map (urandom w) (seq (drawn w + 8) 8))) in *.
  eexists _, _.
  split.
  { apply api_ack_rejects; cbn [AckRequest.device_id AckRequest.request_id commands];
      [exact Hd|].
    rewrite slot_insert. cbn. congruence. }
  cbn [commands].
  split.
  { apply with_slot_present. rewrite lookup_insert_eq. eexists; reflexivity. }
  split.
  { apply api_ack_accepts; cbn [AckRequest.device_id AckRequest.request_id commands];
      [exact Hd|].
    rewrite slot_with_slot, slot_insert. reflexivity. }
  cbn [commands].
  split; [apply lookup_insert_eq|].
  rewrite api_ack_accepts; [reflexivity | exact Hd |].
  cbn [AckRequest.device_id AckRequest.request_id commands].
  rewrite slot_insert. reflexivity.
Qed.

(** The second scenario of the specification, run on a counting random
    source: the two ids differ, the first one is refused and the second
    one accepted. *)
Example scenario_overwrite :
  let p := UnlockRequest.of_device "lock1" in
  let w1 := snd (api_unlock p (Some ADMIN_API_KEY) fresh_world) in
  let w2 := snd (api_unlock p (Some ADMIN_API_KEY) w1) in
  let a1 := AckRequest.of_ids "lock1" "0001020304050607" in
  let a2 := AckRequest.of_ids "lock1" "08090a0b0c0d0e0f" in
  let w3 := snd (api_ack a1 (Some lock1_key) w2) in
  let w4 := snd (api_ack a2 (Some lock1_key) w3) in
  ur_request_id <$> accepted_unlock (fst (api_unlock p (Some ADMIN_API_KEY) fresh_world))
  = Some "0001020304050607" ∧
  ur_request_id <$> accepted_unlock (fst (api_unlock p (Some ADMIN_API_KEY) w1))
  = Some "08090a0b0c0d0e0f" ∧
  accepted (fst (api_ack a1 (Some lock1_key) w2)) = Some false ∧
  accepted (fst (api_ack a2 (Some lock1_key) w3)) = Some true ∧
  commands w4 !! "lock1" = Some NONE_COMMAND.
Proof. vm_compute. repeat split. Qed.

Lemma last_issued_wins_witness :
  UnlockRequest.device_id (UnlockRequest.of_device "lock1")
  = UnlockRequest.device_id (UnlockRequest.of_device "lock1") ∧
  DEVICE_KEYS !! "lock1" = Some lock1_key ∧
  api_unlock (UnlockRequest.of_device "lock1") (Some ADMIN_API_KEY) fresh_world
  = (inr first_response, pending_world) ∧
  api_unlock (UnlockRequest.of_device "lock1") (Some ADMIN_API_KEY) pending_world
  = (inr second_response, overwritten_world) ∧
  ur_request_id first_response ≠ ur_request_id second_response ∧
  ∃ w3 w4,
    api_ack (AckRequest.of_ids "lock1" "0001020304050607") (Some lock1_key)
      overwritten_world
    = (inr {| ok := false; ack_detail := Some "request_id mismatch" |}, w3) ∧
    commands w3 = commands overwritten_world ∧
    api_ack (AckRequest.of_ids "lock1" "08090a0b0c0d0e0f") (Some lock1_key) w3
    = (inr {| ok := true; ack_detail := None |}, w4) ∧
    commands w4 !! "lock1" = Some NONE_COMMAND ∧
    fst (api_ack (AckRequest.of_ids "lock1" "08090a0b0c0d0e0f")
           (Some lock1_key) overwritten_world)
    = inr {| ok := true; ack_detail := None |}.
Proof.
  assert (H0 : UnlockRequest.device_id (UnlockRequest.of_device "lock1")
               = UnlockRequest.device_id (UnlockRequest.of_device "lock1"))
    by reflexivity.
  assert (Hd : DEVICE_KEYS !! "lock1" = Some lock1_key)
    by (vm_compute; reflexivity).
  assert (H1 : api_unlock (UnlockRequest.of_device "lock1")
                 (Some ADMIN_API_KEY) fresh_world
               = (inr first_response, pending_world))
    by (vm_compute; reflexivity).
  assert (H2 : api_unlock (UnlockRequest.of_device "lock1")
                 (Some ADMIN_API_KEY) pending_world
               = (inr second_response, overwritten_world))
    by (vm_compute; reflexivity).
  assert (Hne : ur_request_id first_response ≠ ur_request_id second_response)
    by (vm_compute; discriminate).
  do 5 (split; [assumption|]).
  exact (proj2 (proj2 (last_issued_wins (UnlockRequest.of_device "lock1")
                         (UnlockRequest.of_device "lock1") lock1_key "done"
                         fresh_world pending_world overwritten_world
                         first_response second_response H0 Hd H1 H2 Hne))).
Defined.

(** ** Unknown devices *)

(** C5, as amended: for a [device_id] that is not a key of [DEVICE_KEYS],
    [api_command] and [api_ack] raise the 404 "Unknown device_id" whatever
    key is sent; [api_unlock] raises it when the admin key is right, and
    raises the 401 "Invalid admin API key" when it is not, the admin check
    being its first statement. In each case the state is left as it was. *)
Theorem unknown_device_outcomes (d : string) (w : World) :
  DEVICE_KEYS !! d = None →
  api_command d w = (inl (HTTPException 404 "Unknown device_id"), w) ∧
  (∀ rid status key,
     api_ack {| AckRequest.device_id := d; AckRequest.request_id := rid;
                AckRequest.status := status |} key w
     = (inl (HTTPException 404 "Unknown device_id"), w)) ∧
  (∀ ttl,
     api_unlock {| UnlockRequest.device_id := d;
                   UnlockRequest.ttl_seconds := ttl |} (Some ADMIN_API_KEY) w
     = (inl (HTTPException 404 "Unknown device_id"), w)) ∧
  (∀ ttl key,
     key ≠ Some ADMIN_API_KEY →
     api_unlock {| UnlockRequest.device_id := d;
                   UnlockRequest.ttl_seconds := ttl |} key w
     = (inl (HTTPException 401 "Invalid admin API key"), w)).
Proof.
  intros Hd.
  split; [apply api_command_unknown; assumption|].
  split; [intros; apply api_ack_unknown; assumption|].
  split; [intros; apply api_unlock_unknown; assumption|].
  intros ttl key Hk. apply api_unlock_unauthorized; assumption.
Qed.

Lemma unknown_device_outcomes_witness :
  DEVICE_KEYS !! "lock2" = None ∧
  api_command "lock2" pending_world
  = (inl (HTTPException 404 "Unknown device_id"), pending_world) ∧
  api_ack (AckRequest.of_ids "lock2" "0001020304050607") None pending_world
  = (inl (HTTPException 404 "Unknown device_id"), pending_world) ∧
  api_unlock (UnlockRequest.of_device "lock2") (Some ADMIN_API_KEY) pending_world
  = (inl (HTTPException 404 "Unknown device_id"), pending_world).
Proof.
  assert (Hd : DEVICE_KEYS !! "lock2" = None) by (vm_compute; reflexivity).
  split; [assumption|].
  destruct (unknown_device_outcomes "lock2" pending_world Hd)
    as (Hpoll & Hack & Hissue & _).
  split; [exact Hpoll|].
  split; [apply Hack | apply Hissue].
Defined.

(** C5, as stated, fails for [api_unlock]: with an unknown device and no
    admin key the outcome is the 401, not the 404. *)
Lemma api_unlock_unknown_device_without_key :
  ¬ (∀ (p : UnlockRequest.t) (key : option string) (w : World),
       DEVICE_KEYS !! UnlockRequest.device_id p = None →
       fst (api_unlock p key w) = inl (HTTPException 404 "Unknown device_id")).
Proof.
  intros H.
  specialize (H (UnlockRequest.of_device "lock2") None fresh_world).
  vm_compute in H. specialize (H eq_refl). discriminate H.
Qed.

(** ** The audit log *)

Lemma slice_from_last (n : nat) {A} (l : list A) :
  (0 < n)%nat →
  slice_from (- Z.of_nat n) l = drop (length l - n) l.
Proof.
  intros Hn. unfold slice_from, slice_index.
  case_decide; [|lia]. f_equal. lia.
Qed.

Lemma del_upto_prefix (n : nat) {A} (l : list A) :
  (n ≤ length l)%nat →
  del_upto (Z.of_nat n) l = drop n l.
Proof.
  intros Hn. unfold del_upto, slice_index.
  case_decide; [lia|]. f_equal. lia.
Qed.

(** Dropping the 50 oldest of more than 200 events does not touch the
    last 100. *)
Lemma slice_from_del_upto {A} (l : list A) :
  200 < Z.of_nat (length l) →
  slice_from (-100) (del_upto 50 l) = slice_from (-100) l.
Proof.
  intros Hlen.
  rewrite (del_upto_prefix 50) by lia.
  rewrite !(slice_from_last 100) by lia.
  rewrite drop_drop, length_drop. f_equal. lia.
Qed.

Lemma api_events_unauthorized (key : option string) (w : World) :
  key ≠ Some ADMIN_API_KEY →
  api_events key w = (inl (HTTPException 401 "Invalid admin API key"), w).
Proof.
  intros Hk. unfold api_events. case_decide; [reflexivity | contradiction].
Qed.

Lemma api_events_returns (w : World) :
  api_events (Some ADMIN_API_KEY) w = (inr (slice_from (-100) (events w)), w).
Proof.
  unfold api_events. case_decide; [congruence | reflexivity].
Qed.

(** C9: with the admin key, [api_events] returns a suffix of [events] (the
    most recent entries, in the order they were appended) of length
    [min 100 (len events)], and changes nothing; the trimming done by
    [api_unlock] does not show in it: after an issue, trimmed or not, the
    answer is the last 100 of the untrimmed log. *)
Theorem api_events_recent_tail (w : World) :
  ∃ l,
    api_events (Some ADMIN_API_KEY) w = (inr l, w) ∧
    l `suffix_of` events w ∧
    length l = Nat.min 100 (length (events w)) ∧
    (length l ≤ 100)%nat ∧
    ∀ (p : UnlockRequest.t) (key : string),
      DEVICE_KEYS !! UnlockRequest.device_id p = Some key →
      ∃ e,
        ev_type e = "unlock_issued" ∧
        fst (api_events (Some ADMIN_API_KEY)
               (snd (api_unlock p (Some ADMIN_API_KEY) w)))
        = inr (slice_from (-100) (events w ++ [e])).
Proof.
  eexists. split; [apply api_events_returns|].
  rewrite (slice_from_last 100) by lia.
  split; [eexists (take _ _); symmetry; apply take_drop|].
  rewrite length_drop.
  split; [lia|]. split; [lia|].
  intros p key Hd. eexists (UnlockIssued _ _ _). split; [reflexivity|].
  rewrite (api_unlock_issues _ _ _ Hd). cbv zeta.
  rewrite api_events_returns. cbn [fst snd events].
  case_decide as Hlen; [|reflexivity].
  rewrite slice_from_del_upto by exact Hlen. reflexivity.
Qed.

(** An issue keeps a log of at most 200 entries within 200 entries. *)
Lemma api_unlock_trims (p : UnlockRequest.t) (key : option string) (w : World) :
  (length (events w) ≤ 200)%nat →
  (length (events (snd (api_unlock p key w))) ≤ 200)%nat.
Proof.
  intros Hlen.
  destruct (decide (key = Some ADMIN_API_KEY)) as [->|Hk];
    [|rewrite api_unlock_unauthorized by assumption; exact Hlen].
  destruct (DEVICE_KEYS !! UnlockRequest.device_id p) as [k|] eqn:Hd;
    [|rewrite api_unlock_unknown by assumption; exact Hlen].
  rewrite (api_unlock_issues _ _ _ Hd). cbv zeta. cbn [snd events].
  case_decide as Hover.
  - rewrite (del_upto_prefix 50), length_drop; rewrite length_app in *;
      cbn [length] in *; lia.
  - lia.
Qed.

(** Mismatching acknowledgements append and never trim. *)
Lemma acks_mismatch_length
  (n : nat) (p : AckRequest.t) (key : string) (w : World) :
  DEVICE_KEYS !! AckRequest.device_id p = Some key →
  request_id (slot (AckRequest.device_id p) (commands w))
    ≠ AckRequest.request_id p →
  length (events (acks n p (Some key) w)) = (length (events w) + n)%nat.
Proof.
  intros Hd. revert w. induction n as [|n IH]; intros w Hid.
  - cbn [acks]. lia.
  - cbn [acks]. rewrite (api_ack_rejects _ _ _ Hd Hid). cbn [snd].
    rewrite IH by (cbn [commands]; rewrite slot_with_slot; exact Hid).
    cbn [events]. rewrite length_app. cbn [length]. lia.
Qed.

(** C6 fails on the code: only [api_unlock] trims. From the freshly
    imported module, 201 acknowledgements of an id that is not the stored
    one leave 201 events in the log, and no bound holds: [n] such
    acknowledgements leave [n] events. *)
Theorem audit_log_unbounded :
  length (events (acks 201 (AckRequest.of_ids "lock1" "stale")
                    (Some lock1_key) fresh_world)) = 201%nat ∧
  ∀ bound : nat,
    ∃ n,
      (bound < length (events (acks n (AckRequest.of_ids "lock1" "stale")
                                 (Some lock1_key) fresh_world)))%nat.
Proof.
  assert (Hlen : ∀ n,
    length (events (acks n (AckRequest.of_ids "lock1" "stale")
                      (Some lock1_key) fresh_world)) = n).
  { intros n. rewrite acks_mismatch_length;
      [reflexivity | vm_compute; reflexivity | vm_compute; discriminate]. }
  split; [apply Hlen|].
  intros bound. exists (S bound). rewrite Hlen. lia.
Qed.

(** ** The invariant of the command slot *)

Lemma api_ack_unauthorized
  (p : AckRequest.t) (key : option string) (expected : string) (w : World) :
  DEVICE_KEYS !! AckRequest.device_id p = Some expected →
  key ≠ Some expected →
  api_ack p key w =
    (inl (HTTPException 401 "Invalid device key"),
     mkWorld (with_slot (AckRequest.device_id p) (commands w)) (events w)
       (clock w) (ticks w) (urandom w) (drawn w)).
Proof.
  intros Hd Hk. unfold api_ack, bind.
  rewrite (ensure_device_known _ _ _ Hd), Hd.
  case_decide; [reflexivity | contradiction].
Qed.

Lemma token_hex_nonempty (rnd : nat -> Byte.byte) (n : nat) :
  hexlify (map rnd (seq n 8)) ≠ "".
Proof. cbn [seq map hexlify]. discriminate. Qed.

Lemma token_hex_length (rnd : nat -> Byte.byte) (n k : nat) :
  String.length (hexlify (map rnd (seq n k))) = (2 * k)%nat.
Proof.
  revert n. induction k as [|k IH]; intros n; [reflexivity|].
  cbn [seq map hexlify String.length]. rewrite IH. lia.
Qed.

Lemma slot_ok_none : slot_ok NONE_COMMAND.
Proof. unfold slot_ok. cbn. split; intros H; contradiction. Qed.

Lemma slot_ok_unlock (rid : string) (exp created : Z) :
  rid ≠ "" →
  slot_ok {| action := "unlock"; request_id := rid;
             expires_at := exp; created_at := created |}.
Proof.
  intros Hrid. unfold slot_ok. cbn. split; intros _; [discriminate | exact Hrid].
Qed.

Lemma slots_ok_insert (d : string) (c : Command) (w w' : World) :
  slots_ok w → slot_ok c →
  commands w' = <[d := c]> (commands w) →
  slots_ok w'.
Proof.
  intros Hw Hc Heq d' c'. rewrite Heq.
  destruct (decide (d = d')) as [->|Hne].
  - rewrite lookup_insert_eq. intros [= <-]. exact Hc.
  - rewrite lookup_insert_ne by assumption. apply Hw.
Qed.

Lemma slots_ok_with_slot (d : string) (w w' : World) :
  slots_ok w →
  commands w' = with_slot d (commands w) →
  slots_ok w'.
Proof.
  intros Hw Heq. unfold with_slot in Heq. case_decide.
  - eapply slots_ok_insert; [exact Hw | exact slot_ok_none | exact Heq].
  - intros d' c'. rewrite Heq. apply Hw.
Qed.

Lemma slots_ok_same (w w' : World) :
  slots_ok w → commands w' = commands w → slots_ok w'.
Proof. intros Hw Heq d c. rewrite Heq. apply Hw. Qed.

Lemma serve_slots_ok (r : Request) (w : World) :
  slots_ok w → slots_ok (serve r w).
Proof.
  intros Hw. destruct r as [|p key|d|p key|key]; cbn [serve].
  - eapply slots_ok_same; [exact Hw | reflexivity].
  - destruct (decide (key = Some ADMIN_API_KEY)) as [->|Hk];
      [|rewrite api_unlock_unauthorized by assumption; exact Hw].
    destruct (DEVICE_KEYS !! UnlockRequest.device_id p) as [k|] eqn:Hd;
      [|rewrite api_unlock_unknown by assumption; exact Hw].
    rewrite (api_unlock_issues _ _ _ Hd). cbv zeta. cbn [snd].
    eapply slots_ok_insert;
      [exact Hw | | reflexivity].
    apply slot_ok_unlock, token_hex_nonempty.
  - destruct (DEVICE_KEYS !! d) as [k|] eqn:Hd;
      [|rewrite api_command_unknown by assumption; exact Hw].
    destruct (decide (action (slot d (commands w)) = "none")) as [Hidle|Hbusy].
    { rewrite (api_command_idle _ _ _ Hd Hidle).
      eapply slots_ok_with_slot; [exact Hw | reflexivity]. }
    destruct (decide (clock w (ticks w) > expires_at (slot d (commands w))))
      as [Hlate|Hlive].
    + rewrite (api_command_stale _ _ _ Hd Hbusy Hlate).
      eapply slots_ok_insert;
        [exact Hw | exact slot_ok_none | reflexivity].
    + rewrite (api_command_live _ _ _ Hd Hbusy) by lia.
      eapply slots_ok_with_slot; [exact Hw | reflexivity].
  - destruct (DEVICE_KEYS !! AckRequest.device_id p) as [k|] eqn:Hd;
      [|rewrite api_ack_unknown by assumption; exact Hw].
    destruct (decide (key = Some k)) as [->|Hk];
      [|rewrite (api_ack_unauthorized _ _ _ _ Hd Hk);
        eapply slots_ok_with_slot; [exact Hw | reflexivity]].
    destruct (decide (request_id (slot (AckRequest.device_id p) (commands w))
                      = AckRequest.request_id p)) as [Hid|Hid].
    + rewrite (api_ack_accepts _ _ _ Hd Hid).
      eapply slots_ok_insert;
        [exact Hw | exact slot_ok_none | reflexivity].
    + rewrite (api_ack_rejects _ _ _ Hd Hid).
      eapply slots_ok_with_slot; [exact Hw | reflexivity].
  - destruct (decide (key = Some ADMIN_API_KEY)) as [->|Hk].
    + rewrite api_events_returns. exact Hw.
    + rewrite api_events_unauthorized by assumption. exact Hw.
Qed.

Lemma serve_all_slots_ok (rs : list Request) (w : World) :
  slots_ok w → slots_ok (serve_all rs w).
Proof.
  revert w. induction rs as [|r rs IH]; intros w Hw; [exact Hw|].
  cbn [serve_all fold_left]. apply IH, serve_slots_ok, Hw.
Qed.

(** C8: the stored [request_id] is non-empty exactly when the stored
    [action] is not ["none"]: in the initial state, after any request
    served from a state where it holds, and so in every state the service
    reaches, for every device (a device without an entry holds the NONE
    command). *)
Theorem request_id_nonempty_iff_pending :
  (∀ clk rnd, slots_ok (boot clk rnd)) ∧
  (∀ r w, slots_ok w → slots_ok (serve r w)) ∧
  (∀ clk rnd rs d,
     request_id (slot d (commands (serve_all rs (boot clk rnd)))) ≠ ""
     ↔ action (slot d (commands (serve_all rs (boot clk rnd)))) ≠ "none").
Proof.
  assert (Hboot : ∀ clk rnd, slots_ok (boot clk rnd)).
  { intros clk rnd d c. cbn [boot commands]. rewrite lookup_empty. discriminate. }
  split; [exact Hboot|].
  split; [exact serve_slots_ok|].
  intros clk rnd rs d.
  pose proof (serve_all_slots_ok rs (boot clk rnd) (Hboot clk rnd)) as Hok.
  unfold slot.
  destruct (commands (serve_all rs (boot clk rnd)) !! d) as [c|] eqn:Hc.
  - exact (Hok d c Hc).
  - exact slot_ok_none.
Qed.

(** * Further properties of the handlers *)

(** ** Authentication *)

(** X1: without the admin key (wrong or missing header), [api_unlock] and
    [api_events] raise the 401 "Invalid admin API key" and leave the whole
    state as it was, whatever device the body names: no entry of
    [commands] is created, no event is appended, no token is drawn. *)
Theorem admin_key_required
  (key : option string) (p : UnlockRequest.t) (w : World) :
  key ≠ Some ADMIN_API_KEY →
  api_unlock p key w = (inl (HTTPException 401 "Invalid admin API key"), w) ∧
  api_events key w = (inl (HTTPException 401 "Invalid admin API key"), w).
Proof.
  intros Hk. split.
  - apply api_unlock_unauthorized, Hk.
  - apply api_events_unauthorized, Hk.
Qed.

Lemma admin_key_required_witness :
  Some lock1_key ≠ Some ADMIN_API_KEY ∧
  api_unlock (UnlockRequest.of_device "lock1") (Some lock1_key) pending_world
  = (inl (HTTPException 401 "Invalid admin API key"), pending_world) ∧
  api_events (Some lock1_key) pending_world
  = (inl (HTTPException 401 "Invalid admin API key"), pending_world).
Proof.
  assert (Hk : Some lock1_key ≠ Some ADMIN_API_KEY)
    by (vm_compute; discriminate).
  split; [exact Hk|].
  exact (admin_key_required (Some lock1_key)
           (UnlockRequest.of_device "lock1") pending_world Hk).
Defined.

(** X2: an acknowledgement for a known device without that device's key
    raises the 401 "Invalid device key" and appends no event; the command
    of every device reads as before, so a pending command is not cleared,
    even when the submitted [request_id] is the stored one. Since
    [ensure_device] runs before the check, a device that had no entry in
    [commands] has the NONE entry afterwards. *)
Theorem device_key_required
  (p : AckRequest.t) (key : option string) (expected : string) (w : World) :
  DEVICE_KEYS !! AckRequest.device_id p = Some expected →
  key ≠ Some expected →
  ∃ w',
    api_ack p key w = (inl (HTTPException 401 "Invalid device key"), w') ∧
    events w' = events w ∧
    (∀ d, slot d (commands w') = slot d (commands w)) ∧
    (is_Some (commands w !! AckRequest.device_id p) →
     commands w' = commands w) ∧
    (commands w !! AckRequest.device_id p = None →
     commands w' = <[AckRequest.device_id p := NONE_COMMAND]> (commands w)) ∧
    ticks w' = ticks w.
Proof.
  intros Hd Hk. eexists.
  split; [apply (api_ack_unauthorized _ _ _ _ Hd Hk)|].
  cbn [commands events ticks].
  split; [reflexivity|].
  split; [intros d; apply slot_with_slot|].
  split; [apply with_slot_present|].
  split; [|reflexivity].
  intros Hnone. unfold with_slot. case_decide; [reflexivity | contradiction].
Qed.

Lemma device_key_required_witness :
  DEVICE_KEYS !! "lock1" = Some lock1_key ∧
  Some ADMIN_API_KEY ≠ Some lock1_key ∧
  ∃ w',
    api_ack (AckRequest.of_ids "lock1" "0001020304050607")
      (Some ADMIN_API_KEY) pending_world
    = (inl (HTTPException 401 "Invalid device key"), w') ∧
    events w' = events pending_world ∧
    slot "lock1" (commands w') = slot "lock1" (commands pending_world) ∧
    request_id (slot "lock1" (commands pending_world)) = "0001020304050607".
Proof.
  assert (Hd : DEVICE_KEYS !! "lock1" = Some lock1_key)
    by (vm_compute; reflexivity).
  assert (Hk : Some ADMIN_API_KEY ≠ Some lock1_key)
    by (vm_compute; discriminate).
  do 2 (split; [assumption|]).
  destruct (device_key_required
              (AckRequest.of_ids "lock1" "0001020304050607")
              (Some ADMIN_API_KEY) lock1_key pending_world Hd Hk)
    as (w' & Hack & Hev & Hslot & _).
  exists w'. split; [exact Hack|]. split; [exact Hev|].
  split; [apply Hslot | vm_compute; reflexivity].
Defined.

(** ** What the handlers raise *)

Lemma api_ack_outcomes (p : AckRequest.t) (key : option string) (w : World) :
  (∃ ans, fst (api_ack p key w) = inr ans) ∨
  fst (api_ack p key w) = inl (HTTPException 404 "Unknown device_id") ∨
  fst (api_ack p key w) = inl (HTTPException 401 "Invalid device key").
Proof.
  destruct (DEVICE_KEYS !! AckRequest.device_id p) as [k|] eqn:Hd;
    [|rewrite api_ack_unknown by assumption; right; left; reflexivity].
  destruct (decide (key = Some k)) as [->|Hk];
    [|rewrite (api_ack_unauthorized _ _ _ _ Hd Hk); right; right; reflexivity].
  left.
  destruct (decide (request_id (slot (AckRequest.device_id p) (commands w))
                    = AckRequest.request_id p)) as [Hid|Hid].
  - rewrite (api_ack_accepts _ _ _ Hd Hid). eexists; reflexivity.
  - rewrite (api_ack_rejects _ _ _ Hd Hid). eexists; reflexivity.
Qed.

Lemma api_command_outcomes (d : string) (w : World) :
  (∃ ans, fst (api_command d w) = inr ans) ∨
  fst (api_command d w) = inl (HTTPException 404 "Unknown device_id").
Proof.
  destruct (DEVICE_KEYS !! d) as [k|] eqn:Hd;
    [|rewrite api_command_unknown by assumption; right; reflexivity].
  left.
  destruct (decide (action (slot d (commands w)) = "none")) as [Hidle|Hbusy];
    [rewrite (api_command_idle _ _ _ Hd Hidle); eexists; reflexivity|].
  destruct (decide (clock w (ticks w) > expires_at (slot d (commands w))))
    as [Hlate|Hlive].
  - rewrite (api_command_stale _ _ _ Hd Hbusy Hlate). eexists; reflexivity.
  - rewrite (api_command_live _ _ _ Hd Hbusy) by lia. eexists; reflexivity.
Qed.

(** X3: the subscript [DEVICE_KEYS[payload.device_id]] of [api_ack] never
    raises: whatever the request and the state, [api_ack] answers or raises
    one of its two [HTTPException]s (404 for a device that is not
    registered, 401 for a wrong key), and [api_command] answers or raises
    the 404; neither ends in a [KeyError]. *)
Theorem no_key_error
  (p : AckRequest.t) (key : option string) (d k : string) (w : World) :
  fst (api_ack p key w) ≠ inl (KeyError k) ∧
  fst (api_command d w) ≠ inl (KeyError k) ∧
  (is_Some (DEVICE_KEYS !! AckRequest.device_id p) ↔
   fst (api_ack p key w) ≠ inl (HTTPException 404 "Unknown device_id")) ∧
  (is_Some (DEVICE_KEYS !! d) ↔ ∃ ans, fst (api_command d w) = inr ans).
Proof.
  split; [|split; [|split]].
  - destruct (api_ack_outcomes p key w) as [[ans ->] | [-> | ->]]; discriminate.
  - destruct (api_command_outcomes d w) as [[ans ->] | ->]; discriminate.
  - split.
    + intros [expected Hd].
      destruct (decide (key = Some expected)) as [->|Hk];
        [|rewrite (api_ack_unauthorized _ _ _ _ Hd Hk); discriminate].
      destruct (decide (request_id (slot (AckRequest.device_id p) (commands w))
                        = AckRequest.request_id p)) as [Hid|Hid].
      * rewrite (api_ack_accepts _ _ _ Hd Hid). discriminate.
      * rewrite (api_ack_rejects _ _ _ Hd Hid). discriminate.
    + intros Hnot.
      destruct (DEVICE_KEYS !! AckRequest.device_id p) as [expected|] eqn:Hd;
        [eexists; reflexivity|].
      rewrite api_ack_unknown in Hnot by assumption. contradiction.
  - split.
    + intros [expected Hd].
      destruct (api_command_outcomes d w) as [Hans | Herr]; [exact Hans|].
      destruct (decide (action (slot d (commands w)) = "none")) as [Hidle|Hbusy];
        [rewrite (api_command_idle _ _ _ Hd Hidle) in Herr; discriminate|].
      destruct (decide (clock w (ticks w) > expires_at (slot d (commands w))))
        as [Hlate|Hlive].
      * rewrite (api_command_stale _ _ _ Hd Hbusy Hlate) in Herr. discriminate.
      * rewrite (api_command_live _ _ _ Hd Hbusy) in Herr by lia. discriminate.
    + intros [ans Hans].
      destruct (DEVICE_KEYS !! d) as [expected|] eqn:Hd; [eexists; reflexivity|].
      rewrite api_command_unknown in Hans by assumption. discriminate.
Qed.

(** ** What one request does to [commands] and to [events] *)

Lemma serve_commands_shape (r : Request) (w : World) :
  commands (serve r w) = commands w ∨
  ∃ d, target r = Some d ∧ is_Some (DEVICE_KEYS !! d) ∧
       (commands (serve r w) = with_slot d (commands w) ∨
        ∃ c, commands (serve r w) = <[d := c]> (commands w)).
Proof.
  destruct r as [|p key|d|p key|key]; cbn [serve target].
  - left. reflexivity.
  - destruct (decide (key = Some ADMIN_API_KEY)) as [->|Hk];
      [|rewrite api_unlock_unauthorized by assumption; left; reflexivity].
    destruct (DEVICE_KEYS !! UnlockRequest.device_id p) as [k|] eqn:Hd;
      [|rewrite api_unlock_unknown by assumption; left; reflexivity].
    right. eexists. split; [reflexivity|]. rewrite Hd. split; [eexists; reflexivity|].
    right. rewrite (api_unlock_issues _ _ _ Hd). cbv zeta. eexists; reflexivity.
  - destruct (DEVICE_KEYS !! d) as [k|] eqn:Hd;
      [|rewrite api_command_unknown by assumption; left; reflexivity].
    right. eexists. split; [reflexivity|]. rewrite Hd. split; [eexists; reflexivity|].
    destruct (decide (action (slot d (commands w)) = "none")) as [Hidle|Hbusy];
      [rewrite (api_command_idle _ _ _ Hd Hidle); left; reflexivity|].
    destruct (decide (clock w (ticks w) > expires_at (slot d (commands w))))
      as [Hlate|Hlive].
    + rewrite (api_command_stale _ _ _ Hd Hbusy Hlate). right. eexists; reflexivity.
    + rewrite (api_command_live _ _ _ Hd Hbusy) by lia. left; reflexivity.
  - destruct (DEVICE_KEYS !! AckRequest.device_id p) as [k|] eqn:Hd;
      [|rewrite api_ack_unknown by assumption; left; reflexivity].
    right. eexists. split; [reflexivity|]. rewrite Hd. split; [eexists; reflexivity|].
    destruct (decide (key = Some k)) as [->|Hk];
      [|rewrite (api_ack_unauthorized _ _ _ _ Hd Hk); left; reflexivity].
    destruct (decide (request_id (slot (AckRequest.device_id p) (commands w))
                      = AckRequest.request_id p)) as [Hid|Hid].
    + rewrite (api_ack_accepts _ _ _ Hd Hid). right. eexists; reflexivity.
    + rewrite (api_ack_rejects _ _ _ Hd Hid). left; reflexivity.
  - left. destruct (decide (key = Some ADMIN_API_KEY)) as [->|Hk].
    + rewrite api_events_returns. reflexivity.
    + rewrite api_events_unauthorized by assumption. reflexivity.
Qed.

Lemma serve_events_shape (r : Request) (w : World) :
  events (serve r w) = events w ∨
  ∃ e, target r = Some (ev_device e) ∧
       is_Some (DEVICE_KEYS !! ev_device e) ∧
       ((appends_untrimmed r = true ∧ events (serve r w) = events w ++ [e]) ∨
        (appends_untrimmed r = false ∧
         events (serve r w) =
           if decide (200 < Z.of_nat (length (events w ++ [e])))
           then del_upto 50 (events w ++ [e]) else events w ++ [e])).
Proof.
  destruct r as [|p key|d|p key|key]; cbn [serve target appends_untrimmed].
  - left. reflexivity.
  - destruct (decide (key = Some ADMIN_API_KEY)) as [->|Hk];
      [|rewrite api_unlock_unauthorized by assumption; left; reflexivity].
    destruct (DEVICE_KEYS !! UnlockRequest.device_id p) as [k|] eqn:Hd;
      [|rewrite api_unlock_unknown by assumption; left; reflexivity].
    right. rewrite (api_unlock_issues _ _ _ Hd). cbv zeta. cbn [snd events].
    eexists (UnlockIssued _ _ _). cbn [ev_device].
    split; [reflexivity|]. rewrite Hd. split; [eexists; reflexivity|].
    right. split; reflexivity.
  - destruct (DEVICE_KEYS !! d) as [k|] eqn:Hd;
      [|rewrite api_command_unknown by assumption; left; reflexivity].
    destruct (decide (action (slot d (commands w)) = "none")) as [Hidle|Hbusy];
      [rewrite (api_command_idle _ _ _ Hd Hidle); left; reflexivity|].
    destruct (decide (clock w (ticks w) > expires_at (slot d (commands w))))
      as [Hlate|Hlive].
    + rewrite (api_command_stale _ _ _ Hd Hbusy Hlate). right.
      eexists (CommandExpired _ _). cbn [ev_device snd events].
      split; [reflexivity|]. rewrite Hd. split; [eexists; reflexivity|].
      left. split; reflexivity.
    + rewrite (api_command_live _ _ _ Hd Hbusy) by lia. left; reflexivity.
  - destruct (DEVICE_KEYS !! AckRequest.device_id p) as [k|] eqn:Hd;
      [|rewrite api_ack_unknown by assumption; left; reflexivity].
    destruct (decide (key = Some k)) as [->|Hk];
      [|rewrite (api_ack_unauthorized _ _ _ _ Hd Hk); left; reflexivity].
    right.
    destruct (decide (request_id (slot (AckRequest.device_id p) (commands w))
                      = AckRequest.request_id p)) as [Hid|Hid].
    + rewrite (api_ack_accepts _ _ _ Hd Hid).
      eexists (Ack _ _ _ _). cbn [ev_device snd events].
      split; [reflexivity|]. rewrite Hd. split; [eexists; reflexivity|].
      left. split; reflexivity.
    + rewrite (api_ack_rejects _ _ _ Hd Hid).
      eexists (AckMismatch _ _ _ _ _). cbn [ev_device snd events].
      split; [reflexivity|]. rewrite Hd. split; [eexists; reflexivity|].
      left. split; reflexivity.
  - left. destruct (decide (key = Some ADMIN_API_KEY)) as [->|Hk].
    + rewrite api_events_returns. reflexivity.
    + rewrite api_events_unauthorized by assumption. reflexivity.
Qed.

Lemma with_slot_lookup_ne (d d' : string) (cmds : gmap string Command) :
  d ≠ d' → with_slot d cmds !! d' = cmds !! d'.
Proof.
  intros Hne. unfold with_slot. case_decide; [|reflexivity].
  apply lookup_insert_ne, Hne.
Qed.

Lemma del_upto_suffix {A} (j : Z) (l : list A) : del_upto j l `suffix_of` l.
Proof.
  unfold del_upto. eexists (take _ l). symmetry. apply take_drop.
Qed.

(** ** Devices do not interfere *)

Lemma serve_lookup_other (r : Request) (d' : string) (w : World) :
  target r ≠ Some d' →
  commands (serve r w) !! d' = commands w !! d'.
Proof.
  intros Hother.
  destruct (serve_commands_shape r w) as [-> | (d & Ht & _ & [-> | [c ->]])];
    [reflexivity | |].
  - apply with_slot_lookup_ne. congruence.
  - apply lookup_insert_ne. congruence.
Qed.

(** X5: a request changes the entry of [commands] of no device other than
    the one it names, and so not the command that device holds; [root] and
    [api_events] change none. *)
Theorem other_devices_untouched (r : Request) (d' : string) (w : World) :
  target r ≠ Some d' →
  commands (serve r w) !! d' = commands w !! d' ∧
  slot d' (commands (serve r w)) = slot d' (commands w).
Proof.
  intros Hother. unfold slot.
  rewrite (serve_lookup_other r d' w Hother). split; reflexivity.
Qed.

Lemma other_devices_untouched_witness :
  target (GetCommand "lock2") ≠ Some "lock1" ∧
  commands (serve (GetCommand "lock2") pending_world) !! "lock1"
  = commands pending_world !! "lock1" ∧
  slot "lock1" (commands (serve (GetCommand "lock2") pending_world))
  = slot "lock1" (commands pending_world).
Proof.
  assert (H : target (GetCommand "lock2") ≠ Some "lock1")
    by (vm_compute; discriminate).
  split; [exact H|].
  exact (other_devices_untouched (GetCommand "lock2") "lock1" pending_world H).
Defined.

(** ** The registry bounds the state *)

Lemma serve_confined (r : Request) (w : World) :
  (∀ d, is_Some (commands w !! d) → is_Some (DEVICE_KEYS !! d)) →
  Forall (fun e => is_Some (DEVICE_KEYS !! ev_device e)) (events w) →
  (∀ d, is_Some (commands (serve r w) !! d) → is_Some (DEVICE_KEYS !! d)) ∧
  Forall (fun e => is_Some (DEVICE_KEYS !! ev_device e)) (events (serve r w)).
Proof.
  intros Hc He. split.
  - intros d' Hd'. destruct (decide (target r = Some d')) as [Ht|Ht].
    + destruct (serve_commands_shape r w) as [Heq | (d & Ht' & Hk & _)].
      * apply Hc. rewrite <- Heq. exact Hd'.
      * assert (d = d') as -> by congruence. exact Hk.
    + apply Hc. rewrite <- (serve_lookup_other r d' w Ht) at 1.
      exact Hd'.
  - destruct (serve_events_shape r w)
      as [-> | (e & _ & Hk & [[_ ->] | [_ ->]])]; [exact He | |].
    + apply Forall_app. split; [exact He|]. constructor; [exact Hk | constructor].
    + assert (Hall : Forall (fun e => is_Some (DEVICE_KEYS !! ev_device e))
                       (events w ++ [e])).
      { apply Forall_app. split; [exact He|].
        constructor; [exact Hk | constructor]. }
      case_decide; [|exact Hall].
      unfold del_upto. apply Forall_drop, Hall.
Qed.

(** X4: in every state the service reaches from the freshly imported
    module, [commands] has entries for registered devices only, and every
    event of the log carries the [device_id] of a registered device: a
    request that names an unknown device leaves no trace. *)
Theorem registry_confines_state
  (clk : nat -> Z) (rnd : nat -> Byte.byte) (rs : list Request) :
  (∀ d, is_Some (commands (serve_all rs (boot clk rnd)) !! d) →
        is_Some (DEVICE_KEYS !! d)) ∧
  Forall (fun e => is_Some (DEVICE_KEYS !! ev_device e))
    (events (serve_all rs (boot clk rnd))).
Proof.
  assert (Hgen : ∀ w,
    (∀ d, is_Some (commands w !! d) → is_Some (DEVICE_KEYS !! d)) →
    Forall (fun e => is_Some (DEVICE_KEYS !! ev_device e)) (events w) →
    (∀ d, is_Some (commands (serve_all rs w) !! d) → is_Some (DEVICE_KEYS !! d)) ∧
    Forall (fun e => is_Some (DEVICE_KEYS !! ev_device e))
      (events (serve_all rs w))).
  { induction rs as [|r rs IH]; intros w Hc He; [split; assumption|].
    cbn [serve_all fold_left].
    destruct (serve_confined r w Hc He) as [Hc' He']. apply IH; assumption. }
  apply Hgen.
  - intros d [c Hc]. cbn [boot commands] in Hc. rewrite lookup_empty in Hc.
    discriminate.
  - constructor.
Qed.

(** ** The log between trims *)

(** X6: a request appends at most one event, which carries the
    [device_id] the request names, and never rewrites the log: the new log
    is a suffix of the old one followed by the new event. Outside
    [api_unlock], and in [api_unlock] while the log has fewer than 200
    entries, nothing is dropped: the new log is the old one followed by the
    new event. *)
Theorem log_append_only (r : Request) (w : World) :
  ∃ new,
    (length new ≤ 1)%nat ∧
    Forall (fun e => target r = Some (ev_device e)) new ∧
    events (serve r w) `suffix_of` (events w ++ new) ∧
    (appends_untrimmed r = true ∨ target r = None
     ∨ (length (events w) < 200)%nat →
     events (serve r w) = events w ++ new).
Proof.
  destruct (serve_events_shape r w)
    as [Heq | (e & Ht & _ & [[Hu Heq] | [Hu Heq]])].
  - exists []. rewrite app_nil_r, Heq.
    split; [cbn; lia|]. split; [constructor|]. split; [reflexivity|].
    intros _. reflexivity.
  - exists [e]. rewrite Heq.
    split; [cbn; lia|]. split; [constructor; [exact Ht | constructor]|].
    split; [reflexivity|]. intros _. reflexivity.
  - exists [e]. rewrite Heq.
    split; [cbn; lia|]. split; [constructor; [exact Ht | constructor]|].
    split.
    + case_decide; [apply del_upto_suffix | reflexivity].
    + intros [Hu' | [Hnone | Hlen]]; [congruence | congruence |].
      case_decide as Hover; [|reflexivity].
      rewrite length_app in Hover. cbn [length] in Hover. lia.
Qed.

Lemma serve_trimmed_bound (r : Request) (w : World) :
  appends_untrimmed r = false →
  (length (events w) ≤ 200)%nat →
  (length (events (serve r w)) ≤ 200)%nat.
Proof.
  intros Hr Hlen.
  destruct (serve_events_shape r w)
    as [-> | (e & _ & _ & [[Hu _] | [_ ->]])]; [exact Hlen | congruence |].
  case_decide as Hover.
  - rewrite (del_upto_prefix 50), length_drop; rewrite length_app in *;
      cbn [length] in *; lia.
  - lia.
Qed.

(** X7: as long as only [api_unlock], [api_events] and [root] are called,
    a log of at most 200 entries stays within 200 entries: the check after
    the append of [api_unlock] is enough for the events it appends
    itself. *)
Theorem issues_keep_log_bounded (rs : list Request) (w : World) :
  Forall (fun r => appends_untrimmed r = false) rs →
  (length (events w) ≤ 200)%nat →
  (length (events (serve_all rs w)) ≤ 200)%nat.
Proof.
  intros Hrs. revert w. induction Hrs as [|r rs Hr _ IH]; intros w Hlen;
    [exact Hlen|].
  cbn [serve_all fold_left]. apply IH, serve_trimmed_bound; assumption.
Qed.

Lemma issues_keep_log_bounded_witness :
  Forall (fun r => appends_untrimmed r = false)
    [PostUnlock (UnlockRequest.of_device "lock1") (Some ADMIN_API_KEY);
     GetEvents (Some ADMIN_API_KEY)] ∧
  (length (events full_log_world) ≤ 200)%nat ∧
  length (events full_log_world) = 200%nat ∧
  (length (events
     (serve_all
        [PostUnlock (UnlockRequest.of_device "lock1") (Some ADMIN_API_KEY);
         GetEvents (Some ADMIN_API_KEY)] full_log_world)) ≤ 200)%nat.
Proof.
  assert (Hrs : Forall (fun r => appends_untrimmed r = false)
                  [PostUnlock (UnlockRequest.of_device "lock1")
                     (Some ADMIN_API_KEY);
                   GetEvents (Some ADMIN_API_KEY)])
    by (repeat constructor).
  assert (Heq : length (events full_log_world) = 200%nat)
    by (vm_compute; reflexivity).
  assert (Hlen : (length (events full_log_world) ≤ 200)%nat)
    by (rewrite Heq; lia).
  do 3 (split; [assumption|]).
  exact (issues_keep_log_bounded _ full_log_world Hrs Hlen).
Defined.

(** X8: what the check of [api_unlock] removes. An issue for a known
    device appends its ["unlock_issued"] event; on a log of fewer than 200
    entries that is all, and on a log of 200 entries or more the 50 oldest
    of the result are deleted, no more: the log then has 49 entries fewer
    than before the call, so a log of 200 goes to 151 and a log that had
    grown past 249 stays above 200. *)
Theorem api_unlock_trim_exact
  (p : UnlockRequest.t) (key : string) (w : World) :
  DEVICE_KEYS !! UnlockRequest.device_id p = Some key →
  ∃ e,
    ev_type e = "unlock_issued" ∧
    ev_device e = UnlockRequest.device_id p ∧
    ((length (events w) < 200)%nat →
     events (snd (api_unlock p (Some ADMIN_API_KEY) w)) = events w ++ [e]) ∧
    ((200 ≤ length (events w))%nat →
     events (snd (api_unlock p (Some ADMIN_API_KEY) w))
     = drop 50 (events w ++ [e]) ∧
     length (events (snd (api_unlock p (Some ADMIN_API_KEY) w)))
     = (length (events w) - 49)%nat ∧
     last (events (snd (api_unlock p (Some ADMIN_API_KEY) w))) = Some e).
Proof.
  intros Hd. rewrite (api_unlock_issues _ _ _ Hd). cbv zeta. cbn [snd events].
  eexists (UnlockIssued _ _ _).
  split; [reflexivity|]. split; [reflexivity|].
  split; intros Hlen.
  - case_decide as Hover; [|reflexivity].
    rewrite length_app in Hover. cbn [length] in Hover. lia.
  - case_decide as Hover;
      [|rewrite length_app in Hover; cbn [length] in Hover; lia].
    rewrite (del_upto_prefix 50) by (rewrite length_app; cbn [length]; lia).
    split; [reflexivity|].
    split; [rewrite length_drop, length_app; cbn [length]; lia|].
    rewrite drop_app_le by lia. apply last_snoc.
Qed.

Lemma api_unlock_trim_exact_witness :
  DEVICE_KEYS !! "lock1" = Some lock1_key ∧
  length (events full_log_world) = 200%nat ∧
  length (events (snd (api_unlock (UnlockRequest.of_device "lock1")
                         (Some ADMIN_API_KEY) full_log_world))) = 151%nat.
Proof.
  assert (Hd : DEVICE_KEYS !! "lock1" = Some lock1_key)
    by (vm_compute; reflexivity).
  assert (Heq : length (events full_log_world) = 200%nat)
    by (vm_compute; reflexivity).
  do 2 (split; [assumption|]).
  destruct (api_unlock_trim_exact (UnlockRequest.of_device "lock1")
              lock1_key full_log_world Hd) as (e & _ & _ & _ & Htrim).
  destruct Htrim as (_ & Hlen & _); [rewrite Heq; lia|].
  rewrite Hlen, Heq. reflexivity.
Defined.

(** ** The time to live *)

(** X9: with the admin key and a known device [api_unlock] always
    returns, and the time to live it grants is: the requested one when it
    lies between 3 and 60; 10 when the field is [None] or 0 (both are
    falsy in [ttl_seconds or 10]); 3 for any other value below 3, negative
    ones included; 60 for any value above 60. So 0 grants more than 1
    or 2 do. *)
Theorem api_unlock_ttl_cases
  (p : UnlockRequest.t) (key : string) (w : World) :
  DEVICE_KEYS !! UnlockRequest.device_id p = Some key →
  ∃ resp w',
    api_unlock p (Some ADMIN_API_KEY) w = (inr resp, w') ∧
    ur_device_id resp = UnlockRequest.device_id p ∧
    (UnlockRequest.ttl_seconds p = None ∨ UnlockRequest.ttl_seconds p = Some 0 →
     ur_expires_at resp = clock w (ticks w) + 10) ∧
    (∀ v, UnlockRequest.ttl_seconds p = Some v →
       (3 ≤ v ≤ 60 → ur_expires_at resp = clock w (ticks w) + v) ∧
       (v < 3 → v ≠ 0 → ur_expires_at resp = clock w (ticks w) + 3) ∧
       (60 < v → ur_expires_at resp = clock w (ticks w) + 60)).
Proof.
  intros Hd. eexists _, _.
  split; [apply (api_unlock_issues _ _ _ Hd)|]. cbn [ur_device_id ur_expires_at].
  split; [reflexivity|].
  split.
  - intros [-> | ->]; cbn; reflexivity.
  - intros v ->. unfold int_or. case_decide; repeat split; intros; lia.
Qed.

Lemma api_unlock_ttl_cases_witness :
  DEVICE_KEYS !! "lock1" = Some lock1_key ∧
  ∃ resp w',
    api_unlock {| UnlockRequest.device_id := "lock1";
                  UnlockRequest.ttl_seconds := Some 2 |}
      (Some ADMIN_API_KEY) fresh_world = (inr resp, w') ∧
    ur_expires_at resp = clock fresh_world (ticks fresh_world) + 3.
Proof.
  assert (Hd : DEVICE_KEYS !! "lock1" = Some lock1_key)
    by (vm_compute; reflexivity).
  split; [exact Hd|].
  destruct (api_unlock_ttl_cases
              {| UnlockRequest.device_id := "lock1";
                 UnlockRequest.ttl_seconds := Some 2 |}
              lock1_key fresh_world Hd) as (resp & w' & Hret & _ & _ & Hv).
  exists resp, w'. split; [exact Hret|].
  destruct (Hv 2 eq_refl) as (_ & Hlow & _). apply Hlow; lia.
Defined.

(** ** Issue, then poll or acknowledge *)

(** X10: the poll that follows an issue. When the time it reads is at
    most the [expires_at] the issue returned (equality included), it
    returns the command just stored, with the [request_id] and the
    [expires_at] of the issue's answer, and changes neither [commands] nor
    [events]; when the time is greater, it returns [{"action": "none"}],
    stores the NONE command and appends the ["command_expired"] event. *)
Theorem issue_then_poll (p : UnlockRequest.t) (key : string) (w : World) :
  DEVICE_KEYS !! UnlockRequest.device_id p = Some key →
  ∃ resp w1,
    api_unlock p (Some ADMIN_API_KEY) w = (inr resp, w1) ∧
    (clock w1 (ticks w1) ≤ ur_expires_at resp →
     ∃ w2,
       api_command (UnlockRequest.device_id p) w1
       = (inr (StoredCommand
                 {| action := "unlock"; request_id := ur_request_id resp;
                    expires_at := ur_expires_at resp;
                    created_at := clock w (S (ticks w)) |}), w2) ∧
       commands w2 = commands w1 ∧
       events w2 = events w1) ∧
    (clock w1 (ticks w1) > ur_expires_at resp →
     ∃ w2 ts,
       api_command (UnlockRequest.device_id p) w1
       = (inr (ActionOnly "none"), w2) ∧
       commands w2 !! UnlockRequest.device_id p = Some NONE_COMMAND ∧
       events w2 = events w1 ++ [CommandExpired ts (UnlockRequest.device_id p)]).
Proof.
  intros Hd. eexists _, _.
  split; [apply (api_unlock_issues _ _ _ Hd)|]. cbv zeta.
  cbn [ur_request_id ur_expires_at clock ticks].
  split; intros Ht.
  - eexists. rewrite (api_command_live _ _ _ Hd);
      cbn [commands clock ticks events]; rewrite ?slot_insert;
      cbn [action expires_at]; [|discriminate|exact Ht].
    split; [reflexivity|]. cbn [commands events]. split; [|reflexivity].
    apply with_slot_present. rewrite lookup_insert_eq. eexists; reflexivity.
  - eexists _, _. rewrite (api_command_stale _ _ _ Hd);
      cbn [commands clock ticks events]; rewrite ?slot_insert;
      cbn [action expires_at]; [|discriminate|exact Ht].
    split; [reflexivity|]. cbn [commands events].
    split; [apply lookup_insert_eq | reflexivity].
Qed.

Lemma issue_then_poll_witness :
  DEVICE_KEYS !! "lock1" = Some lock1_key ∧
  ∃ w2,
    api_command "lock1" pending_world
    = (inr (StoredCommand
              {| action := "unlock"; request_id := "0001020304050607";
                 expires_at := 10; created_at := 1 |}), w2) ∧
    commands w2 = commands pending_world ∧
    events w2 = events pending_world.
Proof.
  assert (Hd : DEVICE_KEYS !! "lock1" = Some lock1_key)
    by (vm_compute; reflexivity).
  split; [exact Hd|].
  destruct (issue_then_poll (UnlockRequest.of_device "lock1") lock1_key
              fresh_world Hd) as (resp & w1 & Hret & Hlive & _).
  assert (Hrun : api_unlock (UnlockRequest.of_device "lock1")
                   (Some ADMIN_API_KEY) fresh_world
                 = (inr first_response, pending_world))
    by (vm_compute; reflexivity).
  rewrite Hrun in Hret. injection Hret as <- <-.
  apply Hlive. vm_compute. discriminate.
Defined.

(** X11: the acknowledgement that follows an issue. With the device key
    and the [request_id] the issue returned it is accepted whatever the
    clock reads ([api_ack] never looks at [expires_at]), it appends the
    ["ack"] event, and the poll that follows returns the NONE command
    without touching the state: a command that was acknowledged is never
    reported as expired. *)
Theorem issue_then_ack
  (p : UnlockRequest.t) (key status : string) (w : World) :
  DEVICE_KEYS !! UnlockRequest.device_id p = Some key →
  ∃ resp w1 w2 ts,
    api_unlock p (Some ADMIN_API_KEY) w = (inr resp, w1) ∧
    api_ack {| AckRequest.device_id := UnlockRequest.device_id p;
               AckRequest.request_id := ur_request_id resp;
               AckRequest.status := status |} (Some key) w1
    = (inr {| ok := true; ack_detail := None |}, w2) ∧
    events w2
    = events w1 ++ [Ack ts (UnlockRequest.device_id p) (ur_request_id resp)
                      status] ∧
    api_command (UnlockRequest.device_id p) w2
    = (inr (StoredCommand NONE_COMMAND), w2).
Proof.
  intros Hd. eexists _, _, _, _.
  split; [apply (api_unlock_issues _ _ _ Hd)|]. cbv zeta.
  cbn [ur_request_id].
  split.
  { apply api_ack_accepts; cbn [AckRequest.device_id AckRequest.request_id commands];
      [exact Hd | rewrite slot_insert; reflexivity]. }
  cbn [events AckRequest.device_id AckRequest.request_id AckRequest.status].
  split; [reflexivity|].
  apply (api_command_idle_fixpoint _ key);
    [exact Hd | apply lookup_insert_eq | reflexivity].
Qed.

Lemma issue_then_ack_witness :
  DEVICE_KEYS !! "lock1" = Some lock1_key ∧
  ∃ w2,
    api_ack (AckRequest.of_ids "lock1" "0001020304050607") (Some lock1_key)
      pending_world
    = (inr {| ok := true; ack_detail := None |}, w2) ∧
    api_command "lock1" w2 = (inr (StoredCommand NONE_COMMAND), w2).
Proof.
  assert (Hd : DEVICE_KEYS !! "lock1" = Some lock1_key)
    by (vm_compute; reflexivity).
  split; [exact Hd|].
  destruct (issue_then_ack (UnlockRequest.of_device "lock1") lock1_key "done"
              fresh_world Hd) as (resp & w1 & w2 & ts & Hret & Hack & _ & Hpoll).
  assert (Hrun : api_unlock (UnlockRequest.of_device "lock1")
                   (Some ADMIN_API_KEY) fresh_world
                 = (inr first_response, pending_world))
    by (vm_compute; reflexivity).
  rewrite Hrun in Hret. injection Hret as <- <-.
  exists w2. split; [exact Hack | exact Hpoll].
Defined.

(** X12: the acknowledgement that comes after the expiry. Once a poll has
    expired a command whose [request_id] is not empty, the acknowledgement
    of that [request_id] with the device key is refused: it returns
    [{"ok": False, ...}], leaves [commands] as the poll left it and appends
    an ["ack_mismatch"] event whose [current_request_id] is the empty
    string, right after the ["command_expired"] event. *)
Theorem expiry_then_ack
  (d key status : string) (c : Command) (w : World) :
  DEVICE_KEYS !! d = Some key →
  commands w !! d = Some c →
  action c ≠ "none" →
  request_id c ≠ "" →
  clock w (ticks w) > expires_at c →
  ∃ w1 w2 ts1 ts2,
    api_command d w = (inr (ActionOnly "none"), w1) ∧
    api_ack {| AckRequest.device_id := d;
               AckRequest.request_id := request_id c;
               AckRequest.status := status |} (Some key) w1
    = (inr {| ok := false; ack_detail := Some "request_id mismatch" |}, w2) ∧
    commands w2 = commands w1 ∧
    events w2
    = events w ++ [CommandExpired ts1 d;
                   AckMismatch ts2 d (request_id c) "" status].
Proof.
  intros Hd Hc Hact Hrid Ht.
  assert (Hs : slot d (commands w) = c) by (unfold slot; rewrite Hc; reflexivity).
  eexists _, _, _, _.
  split; [apply (api_command_stale d key); rewrite ?Hs; assumption|].
  split.
  { apply api_ack_rejects; cbn [AckRequest.device_id AckRequest.request_id commands];
      [exact Hd|].
    rewrite slot_insert. cbn. congruence. }
  cbn [commands events AckRequest.device_id AckRequest.request_id
       AckRequest.status].
  split.
  - apply with_slot_present. rewrite lookup_insert_eq. eexists; reflexivity.
  - rewrite slot_insert, <- app_assoc. reflexivity.
Qed.

Lemma expiry_then_ack_witness :
  DEVICE_KEYS !! "lock1" = Some lock1_key ∧
  commands polled_world !! "lock1" = Some scenario_command ∧
  action scenario_command ≠ "none" ∧
  request_id scenario_command ≠ "" ∧
  clock polled_world (ticks polled_world) > expires_at scenario_command ∧
  ∃ w1 w2 ts1 ts2,
    api_command "lock1" polled_world = (inr (ActionOnly "none"), w1) ∧
    api_ack {| AckRequest.device_id := "lock1";
               AckRequest.request_id := request_id scenario_command;
               AckRequest.status := "done" |} (Some lock1_key) w1
    = (inr {| ok := false; ack_detail := Some "request_id mismatch" |}, w2) ∧
    commands w2 = commands w1 ∧
    events w2
    = events polled_world
      ++ [CommandExpired ts1 "lock1";
          AckMismatch ts2 "lock1" (request_id scenario_command) "" "done"].
Proof.
  assert (H1 : DEVICE_KEYS !! "lock1" = Some lock1_key)
    by (vm_compute; reflexivity).
  assert (H2 : commands polled_world !! "lock1" = Some scenario_command)
    by (vm_compute; reflexivity).
  assert (H3 : action scenario_command ≠ "none")
    by (vm_compute; discriminate).
  assert (H4 : request_id scenario_command ≠ "")
    by (vm_compute; discriminate).
  assert (H5 : clock polled_world (ticks polled_world)
               > expires_at scenario_command)
    by (vm_compute; reflexivity).
  do 5 (split; [assumption|]).
  exact (expiry_then_ack "lock1" lock1_key "done" scenario_command
           polled_world H1 H2 H3 H4 H5).
Defined.

(** ** The shape of the token *)

Lemma hex_digit_lower (n : N) : is_lower_hex (hex_digit n) = true.
Proof.
  destruct n as [|q]; [reflexivity|].
  do 4 (destruct q as [q|q|]; try reflexivity).
Qed.

Lemma hexlify_lower (bs : list Byte.byte) :
  forallb is_lower_hex (list_ascii_of_string (hexlify bs)) = true.
Proof.
  induction bs as [|b bs IH]; [reflexivity|].
  cbn [hexlify list_ascii_of_string forallb].
  rewrite !hex_digit_lower, IH. reflexivity.
Qed.

(** X13: the [request_id] of every answer of [api_unlock], and of the
    command it stores, is a string of exactly 16 characters, each one of
    [0123456789abcdef]: [token_hex(8)] writes two digits per byte. In
    particular it is never the empty string, the [request_id] of the NONE
    command. *)
Theorem request_id_is_16_hex_digits
  (p : UnlockRequest.t) (key : option string) (w w' : World)
  (resp : UnlockResponse) :
  api_unlock p key w = (inr resp, w') →
  String.length (ur_request_id resp) = 16%nat ∧
  forallb is_lower_hex (list_ascii_of_string (ur_request_id resp)) = true ∧
  ur_request_id resp ≠ request_id NONE_COMMAND ∧
  request_id <$> commands w' !! UnlockRequest.device_id p
  = Some (ur_request_id resp).
Proof.
  intros Hret.
  destruct (api_unlock_returns_inv _ _ _ _ _ Hret) as [-> [k Hd]].
  rewrite (api_unlock_issues _ _ _ Hd) in Hret. cbv zeta in Hret.
  assert (Hresp : ur_request_id resp
                  = hexlify (map (urandom w) (seq (drawn w) 8)))
    by (apply (f_equal fst) in Hret; cbn [fst] in Hret;
        injection Hret as <-; reflexivity).
  apply (f_equal (fun x => commands (snd x))) in Hret.
  cbn [snd commands] in Hret. rewrite <- Hret, Hresp.
  split; [apply (token_hex_length _ _ 8)|].
  split; [apply hexlify_lower|].
  split; [apply token_hex_nonempty|].
  rewrite lookup_insert_eq. reflexivity.
Qed.

Lemma request_id_is_16_hex_digits_witness :
  api_unlock (UnlockRequest.of_device "lock1") (Some ADMIN_API_KEY) pending_world
  = (inr second_response, overwritten_world) ∧
  String.length (ur_request_id second_response) = 16%nat ∧
  forallb is_lower_hex (list_ascii_of_string (ur_request_id second_response))
  = true.
Proof.
  assert (H : api_unlock (UnlockRequest.of_device "lock1")
                (Some ADMIN_API_KEY) pending_world
              = (inr second_response, overwritten_world))
    by (vm_compute; reflexivity).
  split; [exact H|].
  destruct (request_id_is_16_hex_digits _ _ _ _ _ H) as (Hlen & Hhex & _).
  split; [exact Hlen | exact Hhex].
Defined.

(** ** [ensure_device] *)

(** X14: [ensure_device] raises the 404 exactly for the devices that are
    not keys of [DEVICE_KEYS], and then changes nothing. For a registered
    device it returns; the command of every device reads as before, an
    entry of [commands] that exists is kept as it is (a pending command is
    never replaced by the NONE command), and running it a second time
    changes nothing more. *)
Theorem ensure_device_keeps_commands (d : string) (w : World) :
  (DEVICE_KEYS !! d = None →
   ensure_device d w = (inl (HTTPException 404 "Unknown device_id"), w)) ∧
  (is_Some (DEVICE_KEYS !! d) →
   ∃ w',
     ensure_device d w = (inr tt, w') ∧
     is_Some (commands w' !! d) ∧
     (∀ d', slot d' (commands w') = slot d' (commands w)) ∧
     (∀ d' c, commands w !! d' = Some c → commands w' !! d' = Some c) ∧
     events w' = events w ∧
     ensure_device d w' = (inr tt, w')).
Proof.
  split; [apply ensure_device_unknown|].
  intros [k Hd]. eexists.
  split; [apply (ensure_device_known _ _ _ Hd)|]. cbn [commands events].
  split; [rewrite with_slot_lookup; eexists; reflexivity|].
  split; [intros d'; apply slot_with_slot|].
  split.
  { intros d' c Hc. destruct (decide (d = d')) as [->|Hne].
    - rewrite with_slot_lookup. unfold slot. rewrite Hc. reflexivity.
    - rewrite with_slot_lookup_ne by assumption. exact Hc. }
  split; [reflexivity|].
  rewrite (ensure_device_known _ _ _ Hd). cbn [commands events clock ticks urandom drawn].
  rewrite (with_slot_present d (with_slot d (commands w)))
    by (rewrite with_slot_lookup; eexists; reflexivity).
  reflexivity.
Qed.

(** ** Refused acknowledgements do no harm *)

Lemma acks_mismatch_commands
  (n : nat) (p : AckRequest.t) (key : string) (w : World) :
  DEVICE_KEYS !! AckRequest.device_id p = Some key →
  request_id (slot (AckRequest.device_id p) (commands w))
    ≠ AckRequest.request_id p →
  ∀ d, slot d (commands (acks n p (Some key) w)) = slot d (commands w).
Proof.
  intros Hd. revert w. induction n as [|n IH]; intros w Hid d; [reflexivity|].
  cbn [acks]. rewrite (api_ack_rejects _ _ _ Hd Hid). cbn [snd].
  rewrite IH by (cbn [commands]; rewrite slot_with_slot; exact Hid).
  cbn [commands]. apply slot_with_slot.
Qed.

(** X15: any number of acknowledgements of an id that is not the stored
    one, sent with the device key, leave the command of every device as it
    was and add one event each; the acknowledgement of the stored id that
    comes after them is still accepted. *)
Theorem refused_acks_keep_command
  (n : nat) (bad good : AckRequest.t) (key : string) (w : World) :
  DEVICE_KEYS !! AckRequest.device_id bad = Some key →
  AckRequest.device_id good = AckRequest.device_id bad →
  request_id (slot (AckRequest.device_id bad) (commands w))
    ≠ AckRequest.request_id bad →
  request_id (slot (AckRequest.device_id bad) (commands w))
    = AckRequest.request_id good →
  (∀ d, slot d (commands (acks n bad (Some key) w)) = slot d (commands w)) ∧
  length (events (acks n bad (Some key) w)) = (length (events w) + n)%nat ∧
  fst (api_ack good (Some key) (acks n bad (Some key) w))
  = inr {| ok := true; ack_detail := None |}.
Proof.
  intros Hd Hsame Hbad Hgood.
  split; [apply acks_mismatch_commands; assumption|].
  split; [apply acks_mismatch_length; assumption|].
  rewrite api_ack_accepts; [reflexivity | rewrite Hsame; exact Hd |].
  rewrite Hsame, acks_mismatch_commands by assumption. exact Hgood.
Qed.

Lemma refused_acks_keep_command_witness :
  DEVICE_KEYS !! "lock1" = Some lock1_key ∧
  request_id (slot "lock1" (commands pending_world)) ≠ "stale" ∧
  request_id (slot "lock1" (commands pending_world)) = "0001020304050607" ∧
  length (events (acks 5 (AckRequest.of_ids "lock1" "stale")
                    (Some lock1_key) pending_world))
  = (length (events pending_world) + 5)%nat ∧
  fst (api_ack (AckRequest.of_ids "lock1" "0001020304050607") (Some lock1_key)
         (acks 5 (AckRequest.of_ids "lock1" "stale") (Some lock1_key)
            pending_world))
  = inr {| ok := true; ack_detail := None |}.
Proof.
  assert (Hd : DEVICE_KEYS !! "lock1" = Some lock1_key)
    by (vm_compute; reflexivity).
  assert (Hbad : request_id (slot "lock1" (commands pending_world)) ≠ "stale")
    by (vm_compute; discriminate).
  assert (Hgood : request_id (slot "lock1" (commands pending_world))
                  = "0001020304050607")
    by (vm_compute; reflexivity).
  do 3 (split; [assumption|]).
  exact (proj2 (refused_acks_keep_command 5
                  (AckRequest.of_ids "lock1" "stale")
                  (AckRequest.of_ids "lock1" "0001020304050607")
                  lock1_key pending_world Hd eq_refl Hbad Hgood)).
Defined.
